(** * Dungeon-X Cloudflare Worker: Notion sync with a KV retry queue

    A shallow embedding of [src/index.js] (the worker's request handler,
    the delivery attempt [writeToNotion], the enqueue [queueInKV] and the
    sweep [processQueue]) together with the properties of its
    queued-retry delivery core.

    The worker talks to three collaborators: the Notion REST API (through
    [fetch]), a Workers KV namespace ([env.QUEUE_KV]) and the JavaScript
    runtime (clock, random numbers, console).  They are modelled by an
    explicit [World] that is threaded through every function, and by a
    [Host] of oracles that fixes what the outside answers. *)

From Stdlib Require Import ZArith String Ascii List Lia Bool.
From Stdlib Require Import DecimalString DecimalZ.
From stdpp Require Import base option gmap strings sorting.

Set Warnings "-register-all".

Local Open Scope Z_scope.

(** ** JavaScript values *)

Module Js.

(** A JSON value, as produced by [request.json()], [response.json()] and
    [KV.get(key, { type: 'json' })].  Numbers are restricted to integers. *)
Inductive json : Type :=
| JNull
| JBool (b : bool)
| JNum (n : Z)
| JStr (s : string)
| JArr (items : list json)
| JObj (fields : list (string * json)).

(** A JavaScript value that may also be [undefined], the result of reading
    a property. *)
Abbreviation jsval := (option json).
Abbreviation undefined := (@None json).

(** [typeof v] for a JSON value. *)
Definition typeof (v : json) : string :=
  match v with
  | JNull => "object"
  | JBool _ => "boolean"
  | JNum _ => "number"
  | JStr _ => "string"
  | JArr _ => "object"
  | JObj _ => "object"
  end.

(** ToBoolean: [null], [false], [0] and the empty string are falsy. *)
Definition truthy (v : json) : bool :=
  match v with
  | JNull => false
  | JBool b => b
  | JNum n => negb (n =? 0)
  | JStr s => negb (String.eqb s EmptyString)
  | JArr _ => true
  | JObj _ => true
  end.

Definition truthy_val (v : jsval) : bool :=
  match v with
  | None => false
  | Some j => truthy j
  end.

(** ToBoolean of a string that may be absent ([undefined] or [null]). *)
Definition truthy_str (s : option string) : bool :=
  match s with
  | None => false
  | Some t => negb (String.eqb t EmptyString)
  end.

(** Own-property lookup in the field list of an object. *)
Fixpoint assoc (p : string) (fields : list (string * json)) : jsval :=
  match fields with
  | [] => None
  | (k, v) :: rest => if String.eqb k p then Some v else assoc p rest
  end.

(** The decimal rendering of an integer, as a template literal prints it. *)
Definition dec (n : Z) : string := NilZero.string_of_int (Z.to_int n).

(** [s.substr(start, len)]: at most [len] characters from [start] on. *)
Definition substr (start len : nat) (s : string) : string :=
  String.substring start len s.

(** [t] occurs in [s]. *)
Definition includes (s t : string) : Prop :=
  exists pre post, s = pre +:+ t +:+ post.

End Js.
Export Js.

(** ** Completions: a value or a thrown error *)

(** A JavaScript computation either completes normally or throws; a thrown
    [Error] is represented by its [message]. *)
Inductive Completion (A : Type) : Type :=
| Normal (a : A)
| Throw (message : string).
Arguments Normal {A} a.
Arguments Throw {A} message.

(** [v.p] for a JSON value [v]: reading a property of [null] throws a
    TypeError, primitives and arrays have none of the properties the worker
    reads. *)
Definition get_prop (v : json) (p : string) : Completion jsval :=
  match v with
  | JNull => Throw ("Cannot read properties of null (reading '" +:+ p +:+ "')")
  | JObj fields => Normal (assoc p fields)
  | _ => Normal undefined
  end.

(** ** Collaborators *)

(** The bindings of the worker ([env]): two secrets and the KV namespace.
    A secret that is not configured is [None]; [QUEUE_KV] tells whether the
    namespace is bound (its contents live in the [World]). *)
Record Env : Type := {
  NOTION_API_KEY : option string;
  NOTION_DATABASE_ID : option string;
  QUEUE_KV : bool
}.

(** The record that [queueInKV] serialises under a queue key and that
    [processQueue] reads back: [{ data, timestamp, retries }].  The
    namespace is the worker's own, so it holds records of this shape, with
    an integer count; the sweep reads the count through
    [item.retries || 0], so the field may be absent. *)
Record QueuedItem : Type := {
  data : json;
  timestamp : Z;
  retries : option Z
}.

(** A stored KV pair: the value and the instant (milliseconds) at which the
    namespace stops returning it ([expirationTtl] after the put). *)
Record KvEntry : Type := {
  value : QueuedItem;
  expiration : Z
}.

(** The request sent to the Notion API. *)
Record FetchRequest : Type := {
  fr_url : string;
  fr_method : string;
  fr_headers : list (string * string);
  fr_body : json
}.

(** What the worker observes of the reply: the status, the [Retry-After]
    header ([null] when absent) and the outcome of reading the body through
    [response.text()] or [response.json()], either of which may reject. *)
Record Response : Type := {
  status : Z;
  retry_after : option string;
  text : Completion string;
  json_of : Completion json
}.

(** [response.ok] *)
Definition ok (r : Response) : bool := (200 <=? status r) && (status r <=? 299).

(** The answers of the outside world.  [fetch_reply n req] is the outcome of
    the [n]-th outbound call (a reply, or a rejected promise); [kv_fault n]
    makes the [n]-th KV operation throw; [random_base36 n] is the text of
    the [n]-th [Math.random().toString(36)]; [toISOString] renders a date. *)
Record Host : Type := {
  fetch_reply : nat -> FetchRequest -> Completion Response;
  kv_fault : nat -> option string;
  random_base36 : nat -> string;
  toISOString : Z -> string
}.

Inductive Level : Type := LOG | WARN | ERROR.

(** An argument of a console call: a string, a number, a value, or an
    [Error] (kept by its message). *)
Inductive Arg : Type :=
| Text (s : string)
| Num (n : Z)
| Val (v : jsval)
| Err (message : string).

(** The state threaded through the worker: the KV namespace, the clock
    ([Date.now()], milliseconds), counters of the outbound calls, KV
    operations and random draws made so far, the console, the sweeps
    handed to [ctx.waitUntil] (each with the [env] it was started with),
    and the sweeps that are suspended at their first [await] (each with its
    [env] and the outcome of the listing it has issued).
    The clock stands still while a function of the worker runs; [elapse]
    moves it between two runs. *)
Record World : Type := {
  kv : gmap string KvEntry;
  now : Z;
  fetches : nat;
  kv_ops : nat;
  randoms : nat;
  console : list (Level * list Arg);
  waiting : list Env;
  suspended : list (Env * Completion (list string))
}.

Definition set_kv (m : gmap string KvEntry) (w : World) : World :=
  {| kv := m; now := now w; fetches := fetches w; kv_ops := kv_ops w;
     randoms := randoms w; console := console w; waiting := waiting w;
     suspended := suspended w |}.

Definition set_now (t : Z) (w : World) : World :=
  {| kv := kv w; now := t; fetches := fetches w; kv_ops := kv_ops w;
     randoms := randoms w; console := console w; waiting := waiting w;
     suspended := suspended w |}.

Definition set_fetches (n : nat) (w : World) : World :=
  {| kv := kv w; now := now w; fetches := n; kv_ops := kv_ops w;
     randoms := randoms w; console := console w; waiting := waiting w;
     suspended := suspended w |}.

Definition set_kv_ops (n : nat) (w : World) : World :=
  {| kv := kv w; now := now w; fetches := fetches w; kv_ops := n;
     randoms := randoms w; console := console w; waiting := waiting w;
     suspended := suspended w |}.

Definition set_randoms (n : nat) (w : World) : World :=
  {| kv := kv w; now := now w; fetches := fetches w; kv_ops := kv_ops w;
     randoms := n; console := console w; waiting := waiting w;
     suspended := suspended w |}.

Definition set_console (l : list (Level * list Arg)) (w : World) : World :=
  {| kv := kv w; now := now w; fetches := fetches w; kv_ops := kv_ops w;
     randoms := randoms w; console := l; waiting := waiting w;
     suspended := suspended w |}.

Definition set_waiting (l : list Env) (w : World) : World :=
  {| kv := kv w; now := now w; fetches := fetches w; kv_ops := kv_ops w;
     randoms := randoms w; console := console w; waiting := l;
     suspended := suspended w |}.

Definition set_suspended (l : list (Env * Completion (list string))) (w : World) : World :=
  {| kv := kv w; now := now w; fetches := fetches w; kv_ops := kv_ops w;
     randoms := randoms w; console := console w; waiting := waiting w;
     suspended := l |}.

(** Time passing between two operations of the worker. *)
Definition elapse (d : Z) (w : World) : World := set_now (now w + d) w.

(** ** The monad of worker computations *)

Definition M (A : Type) : Type := World -> Completion A * World.

Definition ret {A} (a : A) : M A := fun w => (Normal a, w).

Definition throw {A} (message : string) : M A := fun w => (Throw message, w).

Definition bind {A B} (m : M A) (k : A -> M B) : M B :=
  fun w =>
    match m w with
    | (Normal a, w') => k a w'
    | (Throw e, w') => (Throw e, w')
    end.

(** [try { m } catch (error) { h error.message }] *)
Definition try_catch {A} (m : M A) (h : string -> M A) : M A :=
  fun w =>
    match m w with
    | (Normal a, w') => (Normal a, w')
    | (Throw e, w') => h e w'
    end.

Definition lift {A} (c : Completion A) : M A := fun w => (c, w).

(** stdpp's monadic notations [x ← m; k] and [m;; k] are used for [M]. *)
#[global] Instance M_ret : MRet M := @ret.
#[global] Instance M_bind : MBind M := fun A B k m => bind m k.

Definition gets {A} (f : World -> A) : M A := fun w => (Normal (f w), w).

Definition modify (f : World -> World) : M unit := fun w => (Normal tt, f w).

(** [console.log], [console.warn], [console.error] *)
Definition console_write (l : Level) (args : list Arg) : M unit :=
  modify (fun w => set_console (console w ++ [(l, args)]) w).

(** [Date.now()] *)
Definition Date_now : M Z := gets now.

Section Worker.

Variable host : Host.

(** [Math.random().toString(36)] *)
Definition Math_random_base36 : M string :=
  fun w => (Normal (random_base36 host (randoms w)), set_randoms (S (randoms w)) w).

(** [await fetch(url, init)]: one outbound call, counted in [fetches]. *)
Definition fetch (req : FetchRequest) : M Response :=
  fun w => (fetch_reply host (fetches w) req, set_fetches (S (fetches w)) w).

(** *** Workers KV *)

(** Every KV operation is one round trip to the namespace, counted in
    [kv_ops]; a round trip that fails throws and changes nothing. *)
Definition kv_round_trip : M unit :=
  fun w =>
    match kv_fault host (kv_ops w) with
    | Some e => (Throw e, set_kv_ops (S (kv_ops w)) w)
    | None => (Normal tt, set_kv_ops (S (kv_ops w)) w)
    end.

(** A pair is returned until its expiration. *)
Definition live (t : Z) (e : KvEntry) : bool := t <? expiration e.

(** What the namespace holds under [key] at the current instant. *)
Definition kv_lookup (w : World) (key : string) : option QueuedItem :=
  match kv w !! key with
  | Some e => if live (now w) e then Some (value e) else None
  | None => None
  end.

(** The order in which the namespace lists its keys: lexicographic, byte by
    byte. *)
Definition key_le (a b : string) : Prop := String.leb a b = true.

#[global] Instance key_le_dec : RelDecision key_le :=
  fun a b => decide (String.leb a b = true).

(** The names of the live pairs whose key starts with [pfx], in the order
    of the listing. *)
Definition queue_keys (pfx : string) (w : World) : list string :=
  merge_sort key_le
    (map fst
       (List.filter (fun p => String.prefix pfx (fst p) && live (now w) (snd p))
          (map_to_list (kv w)))).

(** A call of [KV.list] returns at most 1000 keys. *)
Definition page_limit : nat := 1000.

(** The keys that one call of [KV.list({ prefix })] returns in [w]. *)
Definition listed_keys (pfx : string) (w : World) : list string :=
  take page_limit (queue_keys pfx w).

(** [KV.put(key, JSON.stringify(item), { expirationTtl })], the time to live
    in seconds. *)
Definition kv_put (key : string) (item : QueuedItem) (expirationTtl : Z) : M unit :=
  kv_round_trip;;
  modify (fun w =>
    set_kv (<[key := {| value := item;
                        expiration := now w + expirationTtl * 1000 |}]> (kv w)) w).

(** [KV.get(key, { type: 'json' })]: [null] for a missing or expired key. *)
Definition kv_get (key : string) : M (option QueuedItem) :=
  kv_round_trip;;
  gets (fun w => kv_lookup w key).

(** [KV.delete(key)] *)
Definition kv_delete (key : string) : M unit :=
  kv_round_trip;;
  modify (fun w => set_kv (delete key (kv w)) w).

(** [KV.list({ prefix }).keys]: one page of the listing, the first
    [page_limit] names of [queue_keys].  The worker reads neither
    [list_complete] nor [cursor], so it never sees a second page. *)
Definition kv_list (pfx : string) : M (list string) :=
  kv_round_trip;;
  gets (listed_keys pfx).

(** *** Delivery attempt *)

(** The object returned by [writeToNotion]:
    [{ success: true, pageId }] is [Delivered pageId],
    [{ success: false, rateLimited: true, retryAfter }] is
    [RateLimited retryAfter], and [{ success: false, error }] is
    [Failed error]. *)
Inductive AttemptResult : Type :=
| Delivered (pageId : jsval)
| RateLimited (retryAfter : option string)
| Failed (error : string).

(** [a || b] where [b] is a string *)
Definition or_text (a : jsval) (b : string) : json :=
  match a with
  | Some j => if truthy j then j else JStr b
  | None => JStr b
  end.

Definition rich_text (content : json) : json :=
  JArr [JObj [("text", JObj [("content", content)])]].

(** The [properties] of the Notion page: the title, the optional status and
    description, and the delivery timestamp. *)
Definition page_properties (name status description : jsval) (t : Z) : json :=
  JObj
    ([("Name", JObj [("title", rich_text (or_text name ("Turn " +:+ dec t)))])]
     ++ (if truthy_val status
         then [("Status", JObj [("select", JObj [("name", default JNull status)])])]
         else [])
     ++ (if truthy_val description
         then [("Description", JObj [("rich_text", rich_text (default JNull description))])]
         else [])
     ++ [("Timestamp", JObj [("date", JObj [("start", JStr (toISOString host t))])])]).

Definition notion_request (apiKey databaseId : string) (properties : json) : FetchRequest :=
  {| fr_url := "https://api.notion.com/v1/pages";
     fr_method := "POST";
     fr_headers := [("Authorization", "Bearer " +:+ apiKey);
                    ("Content-Type", "application/json");
                    ("Notion-Version", "2022-06-28")];
     fr_body := JObj [("parent", JObj [("database_id", JStr databaseId)]);
                      ("properties", properties)] |}.

(** [`${retryAfter}`] for a header value that may be [null] *)
Definition show_header (h : option string) : string := default "null" h.

(** [writeToNotion(turnData, env)].  Past the check of the secrets both are
    set, so the [default]s of the request are never used. *)
Definition writeToNotion (turnData : json) (env : Env) : M AttemptResult :=
  try_catch
    (if negb (truthy_str (NOTION_API_KEY env)) || negb (truthy_str (NOTION_DATABASE_ID env))
     then throw "Notion API credentials not configured"
     else
       name ← lift (get_prop turnData "name");
       t ← Date_now;
       label ← lift (get_prop turnData "status");
       description ← lift (get_prop turnData "description");
       response ← fetch (notion_request (default EmptyString (NOTION_API_KEY env))
                                         (default EmptyString (NOTION_DATABASE_ID env))
                                         (page_properties name label description t));
       if status response =? 429 then
         console_write LOG
           [Text ("Rate limited by Notion. Retry after: "
                  +:+ show_header (retry_after response))];;
         mret (RateLimited (retry_after response))
       else if negb (ok response) then
         errorText ← lift (text response);
         console_write ERROR [Text "Notion API error:"; Num (status response); Text errorText];;
         mret (Failed ("Notion API error: " +:+ dec (status response)))
       else
         result ← lift (json_of response);
         id ← lift (get_prop result "id");
         console_write LOG [Text "Successfully created Notion page:"; Val id];;
         mret (Delivered id))
    (fun message =>
       console_write ERROR [Text "Error writing to Notion:"; Err message];;
       mret (Failed message)).

(** *** Retry queue: enqueue *)

(** [`queue:${Date.now()}:${Math.random().toString(36).substr(2, 9)}`] *)
Definition queue_key (t : Z) (random36 : string) : string :=
  "queue:" +:+ dec t +:+ ":" +:+ substr 2 9 random36.

(** [queueInKV(turnData, env)] *)
Definition queueInKV (turnData : json) (env : Env) : M unit :=
  if negb (QUEUE_KV env) then
    console_write WARN [Text "KV namespace not configured, skipping queue"]
  else
    try_catch
      (t ← Date_now;
       r ← Math_random_base36;
       let queueKey := queue_key t r in
       stamp ← Date_now;
       kv_put queueKey {| data := turnData; timestamp := stamp; retries := Some 0 |} 86400;;
       console_write LOG [Text ("Queued turn data in KV: " +:+ queueKey)])
      (fun message => console_write ERROR [Text "Error queuing in KV:"; Err message]).

(** *** Retry queue: sweep *)

(** [item.retries || 0] *)
Definition retries_or_0 (item : QueuedItem) : Z :=
  match retries item with
  | Some n => if n =? 0 then 0 else n
  | None => 0
  end.

(** [item.retries = n] *)
Definition set_retries (n : Z) (item : QueuedItem) : QueuedItem :=
  {| data := data item; timestamp := timestamp item; retries := Some n |}.

(** The part of the loop body of [processQueue] that follows a successful
    read of the item: the re-attempt and the update of the queue. *)
Definition retry_item (env : Env) (name : string) (item : QueuedItem) : M unit :=
  result ← writeToNotion (data item) env;
  match result with
  | Delivered _ =>
      kv_delete name;;
      console_write LOG [Text ("Successfully processed queued item: " +:+ name)]
  | RateLimited _ =>
      let n := retries_or_0 item + 1 in
      let item := set_retries n item in
      if n <? 5 then
        kv_put name item 86400
      else
        kv_delete name;;
        console_write ERROR [Text ("Max retries reached for queued item: " +:+ name)]
  | Failed _ =>
      let n := retries_or_0 item + 1 in
      let item := set_retries n item in
      if n <? 3 then
        kv_put name item 86400
      else
        kv_delete name;;
        console_write ERROR
          [Text ("Failed to process queued item after retries: " +:+ name)]
  end.

(** The body of the inner [try] of [processQueue], for the key [name]. *)
Definition process_item (env : Env) (name : string) : M unit :=
  item ← kv_get name;
  match item with
  | None => mret tt
  | Some item => retry_item env name item
  end.

(** One iteration of the [for] loop: the body under its [try]/[catch]. *)
Definition guarded_item (env : Env) (name : string) : M unit :=
  try_catch (process_item env name)
    (fun message =>
       console_write ERROR [Text ("Error processing queue item " +:+ name +:+ ":");
                            Err message]).

(** [for (const key of list.keys) { try { ... } catch (error) { ... } }] *)
Fixpoint sweep_keys (env : Env) (names : list string) : M unit :=
  match names with
  | [] => mret tt
  | name :: rest => guarded_item env name;; sweep_keys env rest
  end.

(** [processQueue(env)] *)
Definition processQueue (env : Env) : M unit :=
  if negb (QUEUE_KV env) then mret tt
  else
    try_catch
      (names ← kv_list "queue:";
       sweep_keys env names)
      (fun message => console_write ERROR [Text "Error processing queue:"; Err message]).

(** *** The request handler *)

(** What the handler reads of the inbound request: the path, the method and
    the outcome of [request.json()]. *)
Record Request : Type := {
  pathname : string;
  method : string;
  json_body : Completion json
}.

Inductive Body : Type :=
| Json (j : json)
| Plain (s : string).

Record HttpResponse : Type := {
  http_status : Z;
  http_headers : list (string * string);
  http_body : Body
}.

Definition json_response (code : Z) (body : json) : HttpResponse :=
  {| http_status := code;
     http_headers := [("Content-Type", "application/json")];
     http_body := Json body |}.

(** An operation that has been issued, with its outcome kept as a value:
    a promise that is awaited later. *)
Definition outcome {A} (m : M A) : M (Completion A) :=
  fun w => (Normal (fst (m w)), snd (m w)).

(** [processQueue(env)] from its first [await] on: the listing has come
    back, with its keys or with an error. *)
Definition resume_processQueue (env : Env) (listing : Completion (list string)) : M unit :=
  try_catch
    (names ← lift listing;
     sweep_keys env names)
    (fun message => console_write ERROR [Text "Error processing queue:"; Err message]).

(** [ctx.waitUntil(processQueue(env))].  The call [processQueue(env)] runs at
    once up to its first [await]: without a namespace it returns, otherwise
    it issues [QUEUE_KV.list] and is suspended.  The promise is then handed
    to the runtime, and the handler goes on to build its response. *)
Definition waitUntil_processQueue (env : Env) : M unit :=
  (if negb (QUEUE_KV env) then mret tt
   else
     listing ← outcome (kv_list "queue:");
     modify (fun w => set_suspended (suspended w ++ [(env, listing)]) w));;
  modify (fun w => set_waiting (waiting w ++ [env]) w).

(** [a || b] on strings *)
Definition or_string (a b : string) : string :=
  if String.eqb a EmptyString then b else a.

Definition synced_response : HttpResponse :=
  json_response 200
    (JObj [("success", JBool true); ("message", JStr "Turn data synced to Notion")]).

Definition queued_response : HttpResponse :=
  json_response 202
    (JObj [("success", JBool true);
           ("message", JStr "Turn data queued due to rate limiting");
           ("queued", JBool true)]).

Definition invalid_response : HttpResponse :=
  json_response 400 (JObj [("error", JStr "Invalid request body")]).

Definition error_response (message : string) : HttpResponse :=
  json_response 500 (JObj [("error", JStr (or_string message "Internal server error"))]).

(** [handleTurnResolved(request, env, ctx)] *)
Definition handleTurnResolved (request : Request) (env : Env) : M HttpResponse :=
  try_catch
    (turnData ← lift (json_body request);
     if negb (truthy turnData) || negb (String.eqb (typeof turnData) "object") then
       mret invalid_response
     else
       result ← writeToNotion turnData env;
       match result with
       | Delivered _ => mret synced_response
       | RateLimited _ =>
           queueInKV turnData env;;
           waitUntil_processQueue env;;
           mret queued_response
       | Failed error => throw (or_string error "Failed to write to Notion")
       end)
    (fun message =>
       console_write ERROR [Text "Error handling turn-resolved:"; Err message];;
       mret (error_response message)).

(** The worker's [fetch(request, env, ctx)] *)
Definition worker_fetch (request : Request) (env : Env) : M HttpResponse :=
  if String.eqb (pathname request) "/turn-resolved" && String.eqb (method request) "POST"
  then handleTurnResolved request env
  else mret {| http_status := 404; http_headers := []; http_body := Plain "Not Found" |}.

(** The runtime settling the sweeps that were handed to [ctx.waitUntil]:
    each suspended sweep is resumed with the listing it was waiting for. *)
Fixpoint run_sweeps (tasks : list (Env * Completion (list string))) : M unit :=
  match tasks with
  | [] => mret tt
  | (env, listing) :: rest => resume_processQueue env listing;; run_sweeps rest
  end.

Definition settle : M unit :=
  tasks ← gets suspended;
  modify (fun w => set_suspended [] (set_waiting [] w));;
  run_sweeps tasks.

End Worker.

(** ** Pure readings of the attempt *)

Section Readings.

Variable host : Host.

(** [v.p] when [v] is known not to be [null]. *)
Definition prop (v : json) (p : string) : jsval :=
  match get_prop v p with
  | Normal x => x
  | Throw _ => None
  end.

(** Both secrets are set to a non-empty string. *)
Definition configured (env : Env) : bool :=
  truthy_str (NOTION_API_KEY env) && truthy_str (NOTION_DATABASE_ID env).

(** The request that [writeToNotion] sends for [turnData] at instant [t]. *)
Definition attempt_request (turnData : json) (env : Env) (t : Z) : FetchRequest :=
  notion_request (default EmptyString (NOTION_API_KEY env))
    (default EmptyString (NOTION_DATABASE_ID env))
    (page_properties host (prop turnData "name") (prop turnData "status")
       (prop turnData "description") t).

(** The reply to the outbound call that [writeToNotion] makes in [w]. *)
Definition reply_in (turnData : json) (env : Env) (w : World) : Completion Response :=
  fetch_reply host (fetches w) (attempt_request turnData env (now w)).

(** The outcome of an attempt that reached the outbound call, read off the
    reply: the classification that [writeToNotion] is shown to compute. *)
Definition classify (reply : Completion Response) : AttemptResult :=
  match reply with
  | Throw message => Failed message
  | Normal r =>
      if status r =? 429 then RateLimited (retry_after r)
      else if negb (ok r) then
        match text r with
        | Normal _ => Failed ("Notion API error: " +:+ dec (status r))
        | Throw message => Failed message
        end
      else
        match json_of r with
        | Normal j =>
            match get_prop j "id" with
            | Normal id => Delivered id
            | Throw message => Failed message
            end
        | Throw message => Failed message
        end
  end.

(** The console line of that attempt. *)
Definition attempt_line (reply : Completion Response) : Level * list Arg :=
  let failed message := (ERROR, [Text "Error writing to Notion:"; Err message]) in
  match reply with
  | Throw message => failed message
  | Normal r =>
      if status r =? 429 then
        (LOG, [Text ("Rate limited by Notion. Retry after: "
                     +:+ show_header (retry_after r))])
      else if negb (ok r) then
        match text r with
        | Normal errorText =>
            (ERROR, [Text "Notion API error:"; Num (status r); Text errorText])
        | Throw message => failed message
        end
      else
        match json_of r with
        | Normal j =>
            match get_prop j "id" with
            | Normal id => (LOG, [Text "Successfully created Notion page:"; Val id])
            | Throw message => failed message
            end
        | Throw message => failed message
        end
  end.

(** One KV round trip, seen from the world. *)
Definition tick (w : World) : World := set_kv_ops (S (kv_ops w)) w.

(** What a sweep leaves queued for an item after its re-attempt: nothing
    once delivered, the item with its count raised while the count stays
    under the ceiling of the outcome (5 when rate limited, 3 otherwise). *)
Definition queue_update (r : AttemptResult) (item : QueuedItem) : option QueuedItem :=
  let n := retries_or_0 item + 1 in
  match r with
  | Delivered _ => None
  | RateLimited _ => if n <? 5 then Some (set_retries n item) else None
  | Failed _ => if n <? 3 then Some (set_retries n item) else None
  end.

(** The namespace after the sweep wrote [o] back under [name] at instant
    [t]: a put with a time to live of 86400 seconds, or a delete. *)
Definition store_after (name : string) (t : Z) (o : option QueuedItem)
    (m : gmap string KvEntry) : gmap string KvEntry :=
  match o with
  | Some item => <[name := {| value := item; expiration := t + 86400 * 1000 |}]> m
  | None => delete name m
  end.

(** The console line of the inner [catch] of [processQueue]. *)
Definition item_error_line (name message : string) : Level * list Arg :=
  (ERROR, [Text ("Error processing queue item " +:+ name +:+ ":"); Err message]).

(** The outcome of a listing of the queue issued in [w]. *)
Definition listing_in (w : World) : Completion (list string) :=
  match kv_fault host (kv_ops w) with
  | Some e => Throw e
  | None => Normal (listed_keys "queue:" w)
  end.

(** The world once [ctx.waitUntil(processQueue(env))] has been evaluated in
    [w]: with a namespace, the listing has been issued and the sweep is
    suspended on it; in any case the promise is with the runtime. *)
Definition handed_over (env : Env) (w : World) : World :=
  set_waiting (waiting w ++ [env])
    (if QUEUE_KV env
     then set_suspended (suspended w ++ [(env, listing_in w)]) (tick w)
     else w).

(** The key under which an enqueue made in [w] stores its item, and the
    pair it stores. *)
Definition enqueue_key (w : World) : string :=
  queue_key (now w) (random_base36 host (randoms w)).

Definition enqueue_entry (turnData : json) (w : World) : KvEntry :=
  {| value := {| data := turnData; timestamp := now w; retries := Some 0 |};
     expiration := now w + 86400 * 1000 |}.

End Readings.

(** The payload passes the validation of the handler: it is not falsy and
    its [typeof] is ["object"]. *)
Definition well_formed (turnData : json) : bool :=
  truthy turnData && String.eqb (typeof turnData) "object".

(** No character of [s] is a colon. *)
Fixpoint no_colon (s : string) : bool :=
  match s with
  | EmptyString => true
  | String c rest => negb (Ascii.eqb c ":") && no_colon rest
  end.


(** ** Scenarios

    Concrete hosts, bindings and worlds on which the worker is run. *)

Module Scenario.

Definition reply (code : Z) (hint : option string) (body : Completion string)
    (parsed : Completion json) : Completion Response :=
  Normal {| status := code; retry_after := hint; text := body; json_of := parsed |}.

Definition created : Completion Response :=
  reply 200 None (Normal "{}") (Normal (JObj [("id", JStr "page-1")])).

Definition too_many : Completion Response :=
  reply 429 (Some "3") (Normal EmptyString) (Throw "Unexpected end of JSON input").

Definition server_error : Completion Response :=
  reply 500 None (Normal "oops") (Throw "Unexpected token o in JSON").

Definition empty_ok : Completion Response :=
  reply 200 None (Normal EmptyString) (Throw "Unexpected end of JSON input").

Definition null_ok : Completion Response :=
  reply 200 None (Normal "null") (Normal JNull).

(** A host that answers the [n]-th outbound call with the [n]-th of
    [replies] (the network is down afterwards), refuses the KV operations
    whose index is in [faults], and always draws the same random number. *)
Definition scripted (replies : list (Completion Response)) (faults : list nat) : Host :=
  {| fetch_reply := fun n _ => nth n replies (Throw "network down");
     kv_fault := fun n => if existsb (Nat.eqb n) faults then Some "KV unavailable" else None;
     random_base36 := fun _ => "0.4fzyo82mvyr";
     toISOString := fun _ => "2023-11-14T22:13:20.000Z" |}.

(** A host that gives every outbound call the same answer. *)
Definition always (r : Completion Response) : Host :=
  {| fetch_reply := fun _ _ => r;
     kv_fault := fun _ => None;
     random_base36 := fun _ => "0.4fzyo82mvyr";
     toISOString := fun _ => "2023-11-14T22:13:20.000Z" |}.

Definition bound : Env :=
  {| NOTION_API_KEY := Some "secret"; NOTION_DATABASE_ID := Some "db"; QUEUE_KV := true |}.

Definition unbound : Env :=
  {| NOTION_API_KEY := Some "secret"; NOTION_DATABASE_ID := Some "db"; QUEUE_KV := false |}.

Definition keyless : Env :=
  {| NOTION_API_KEY := None; NOTION_DATABASE_ID := Some "db"; QUEUE_KV := true |}.

Definition turn (name : string) : json := JObj [("name", JStr name)].

Definition post (body : Completion json) : Request :=
  {| pathname := "/turn-resolved"; method := "POST"; json_body := body |}.

Definition start : Z := 1700000000000.

(** A world at instant [start] whose namespace holds [m]. *)
Definition world (m : gmap string KvEntry) : World :=
  {| kv := m; now := start; fetches := 0; kv_ops := 0; randoms := 0;
     console := []; waiting := []; suspended := [] |}.

Definition queued (name : string) (count : option Z) : QueuedItem :=
  {| data := turn name; timestamp := start; retries := count |}.

Definition fresh (item : QueuedItem) : KvEntry :=
  {| value := item; expiration := start + 86400 * 1000 |}.

Definition k1 : string := "queue:1700000000000:4fzyo82mv".
Definition k2 : string := "queue:1700000000000:zzzzzzzzz".

(** A world whose namespace holds [item] under [k1], and an empty one. *)
Definition holding (item : QueuedItem) : World := world {[k1 := fresh item]}.

Definition empty : World := world ∅.

(** A namespace holding [n] queued items, under the keys "queue:0" to
    "queue:<n-1>". *)
Definition numbered (n : nat) : gmap string KvEntry :=
  list_to_map
    (map (fun i => ("queue:" +:+ dec (Z.of_nat i), fresh (queued "a" (Some 0))))
       (seq 0 n)).

(** The worker run [n] times on the single key [name]. *)
Fixpoint sweeps (host : Host) (env : Env) (name : string) (n : nat) (w : World) : World :=
  match n with
  | O => w
  | S n' => sweeps host env name n' (snd (guarded_item host env name w))
  end.

End Scenario.

(** * Properties *)

Ltac run :=
  unfold mbind, M_bind, mret, M_ret, bind, ret, throw, try_catch, lift,
    console_write, Date_now, gets, modify in *;
  cbv beta iota in *.

Section DeliveryAttempt.

Variable host : Host.

Lemma writeToNotion_unconfigured turnData env w :
  configured env = false ->
  writeToNotion host turnData env w =
    (Normal (Failed "Notion API credentials not configured"),
     set_console
       (console w ++ [(ERROR, [Text "Error writing to Notion:";
                               Err "Notion API credentials not configured"])]) w).
Proof.
  unfold configured, writeToNotion. intros Hc.
  destruct (truthy_str (NOTION_API_KEY env)), (truthy_str (NOTION_DATABASE_ID env));
    try discriminate; reflexivity.
Qed.

(** The attempt never throws, and it leaves the queue, the clock, the KV
    counter, the random counter and the pending sweeps alone. *)
Lemma writeToNotion_total turnData env w :
  exists r w',
    writeToNotion host turnData env w = (Normal r, w') /\
    kv w' = kv w /\ now w' = now w /\ kv_ops w' = kv_ops w /\
    randoms w' = randoms w /\ waiting w' = waiting w /\
    (fetches w <= fetches w')%nat.
Proof.
  unfold writeToNotion. run.
  destruct (negb _ || negb _); [eexists _, _; split; [reflexivity | cbn; auto 10] |].
  destruct (get_prop turnData "name"); [| eexists _, _; split; [reflexivity | cbn; auto 10]].
  destruct (get_prop turnData "status"); [| eexists _, _; split; [reflexivity | cbn; auto 10]].
  destruct (get_prop turnData "description"); [| eexists _, _; split; [reflexivity | cbn; auto 10]].
  unfold fetch.
  cbn. match goal with |- context [fetch_reply ?h ?n ?q] =>
    destruct (fetch_reply h n q) as [r|] end; [| eexists _, _; split; [reflexivity | cbn; auto 10]].
  destruct (status r =? 429); [eexists _, _; split; [reflexivity | cbn; auto 10]|].
  destruct (negb (ok r)).
  - destruct (text r); eexists _, _; (split; [reflexivity | cbn; auto 10]).
  - destruct (json_of r) as [j|]; [|eexists _, _; split; [reflexivity | cbn; auto 10]].
    destruct (get_prop j "id"); eexists _, _; (split; [reflexivity | cbn; auto 10]).
Qed.

(** With both secrets set and an event that is not [null], the attempt makes
    exactly one outbound call and returns the classification of its reply. *)
Lemma writeToNotion_configured turnData env w :
  configured env = true ->
  turnData <> JNull ->
  writeToNotion host turnData env w =
    (Normal (classify (reply_in host turnData env w)),
     set_console (console w ++ [attempt_line (reply_in host turnData env w)])
       (set_fetches (S (fetches w)) w)).
Proof.
  unfold configured, writeToNotion. intros Hc Hn.
  apply andb_true_iff in Hc as [-> ->]. run. cbn [negb orb].
  assert (Hp : forall p, get_prop turnData p = Normal (prop turnData p)).
  { intros p. unfold prop. destruct turnData; try reflexivity. congruence. }
  rewrite !Hp. unfold fetch.
  match goal with |- context [fetch_reply host ?n ?q] =>
    change (fetch_reply host n q) with (reply_in host turnData env w) end.
  destruct (reply_in host turnData env w) as [r|]; cbn; [| reflexivity].
  destruct (status r =? 429); [reflexivity |].
  destruct (negb (ok r)).
  - destruct (text r); reflexivity.
  - destruct (json_of r) as [j|]; [| reflexivity].
    destruct (get_prop j "id"); reflexivity.
Qed.

(** A [null] event makes the property read throw before any call. *)
Lemma writeToNotion_null env w :
  configured env = true ->
  exists message,
    writeToNotion host JNull env w =
      (Normal (Failed message),
       set_console (console w ++ [(ERROR, [Text "Error writing to Notion:"; Err message])]) w).
Proof.
  unfold configured, writeToNotion. intros Hc.
  apply andb_true_iff in Hc as [-> ->]. eexists. reflexivity.
Qed.

End DeliveryAttempt.

(** ** Queue keys *)

Section Keys.

Lemma append_empty_r (s : string) : s +:+ EmptyString = s.
Proof.
  induction s as [|c s IH]; [done |].
  change (String c (s +:+ EmptyString) = String c s). by f_equal.
Qed.

Lemma uint_no_colon d : no_colon (NilEmpty.string_of_uint d) = true.
Proof. induction d; cbn; auto. Qed.

Lemma dec_no_colon n : no_colon (dec n) = true.
Proof.
  unfold dec, NilZero.string_of_int, NilZero.string_of_uint.
  destruct (Z.to_int n) as [d|d]; destruct d; cbn; auto using uint_no_colon.
Qed.

Lemma dec_inj a b : dec a = dec b -> a = b.
Proof.
  unfold dec. intros H. apply DecimalZ.to_int_inj.
  assert (Hn : forall n, Z.to_int n <> Decimal.Pos Decimal.Nil /\
                         Z.to_int n <> Decimal.Neg Decimal.Nil).
  { intros [|p|p]; cbn; split; try discriminate; intros [= E];
      by apply DecimalPos.Unsigned.to_uint_nonnil in E. }
  assert (Hs : Some (Z.to_int a) = Some (Z.to_int b)).
  { rewrite <- (NilZero.isi (Z.to_int a)), <- (NilZero.isi (Z.to_int b)), H;
      [done | apply Hn..]. }
  congruence.
Qed.

(** Two texts without a colon, each followed by a colon and a suffix, are
    equal only part by part. *)
Lemma split_at_colon a b s t :
  no_colon a = true -> no_colon b = true ->
  a +:+ ":" +:+ s = b +:+ ":" +:+ t -> a = b /\ s = t.
Proof.
  revert b. induction a as [|c a IH]; intros [|d b] Ha Hb; cbn in *.
  - intros [=]. auto.
  - intros [= <- _]. cbn in Hb. discriminate.
  - intros [= -> _]. cbn in Ha. discriminate.
  - apply andb_true_iff in Ha as [_ Ha]. apply andb_true_iff in Hb as [_ Hb].
    intros [= -> H]. destruct (IH b Ha Hb H) as [-> ->]. auto.
Qed.

Lemma queue_key_inj t1 r1 t2 r2 :
  queue_key t1 r1 = queue_key t2 r2 -> t1 = t2 /\ substr 2 9 r1 = substr 2 9 r2.
Proof.
  unfold queue_key. intros H. cbn in H. injection H as H.
  apply split_at_colon in H as [Hd Hs]; auto using dec_no_colon.
  split; [by apply dec_inj | done].
Qed.

End Keys.

Section Sweep.

Variable host : Host.

Lemma kv_round_trip_ok w :
  kv_fault host (kv_ops w) = None ->
  kv_round_trip host w = (Normal tt, tick w).
Proof. unfold kv_round_trip. intros ->. reflexivity. Qed.

Lemma kv_round_trip_fault w e :
  kv_fault host (kv_ops w) = Some e ->
  kv_round_trip host w = (Throw e, tick w).
Proof. unfold kv_round_trip. intros ->. reflexivity. Qed.

(** The re-attempt followed by a queue update that the namespace accepts. *)
Lemma retry_item_ok env name item w r w1 :
  writeToNotion host (data item) env w = (Normal r, w1) ->
  kv_fault host (kv_ops w1) = None ->
  exists w2,
    retry_item host env name item w = (Normal tt, w2) /\
    kv w2 = store_after name (now w1) (queue_update r item) (kv w1) /\
    now w2 = now w1 /\ fetches w2 = fetches w1 /\ waiting w2 = waiting w1 /\
    kv_ops w2 = S (kv_ops w1).
Proof.
  intros Hr Hf. unfold retry_item. run. rewrite Hr.
  unfold queue_update, store_after.
  destruct r as [id | h | e].
  - unfold kv_delete. run. rewrite (kv_round_trip_ok _ Hf).
    eexists. split; [reflexivity |]. cbn. auto.
  - destruct (retries_or_0 item + 1 <? 5).
    + unfold kv_put. run. rewrite (kv_round_trip_ok _ Hf).
      eexists. split; [reflexivity |]. cbn. auto.
    + unfold kv_delete. run. rewrite (kv_round_trip_ok _ Hf).
      eexists. split; [reflexivity |]. cbn. auto.
  - destruct (retries_or_0 item + 1 <? 3).
    + unfold kv_put. run. rewrite (kv_round_trip_ok _ Hf).
      eexists. split; [reflexivity |]. cbn. auto.
    + unfold kv_delete. run. rewrite (kv_round_trip_ok _ Hf).
      eexists. split; [reflexivity |]. cbn. auto.
Qed.

(** The re-attempt followed by a queue update that the namespace refuses:
    the error escapes and the queue is as it was. *)
Lemma retry_item_fault env name item w r w1 e :
  writeToNotion host (data item) env w = (Normal r, w1) ->
  kv_fault host (kv_ops w1) = Some e ->
  retry_item host env name item w = (Throw e, tick w1).
Proof.
  intros Hr Hf. unfold retry_item. run. rewrite Hr.
  destruct r as [id | h | e'].
  - unfold kv_delete. run. rewrite (kv_round_trip_fault _ _ Hf). reflexivity.
  - destruct (retries_or_0 item + 1 <? 5); unfold kv_put, kv_delete; run;
      rewrite (kv_round_trip_fault _ _ Hf); reflexivity.
  - destruct (retries_or_0 item + 1 <? 3); unfold kv_put, kv_delete; run;
      rewrite (kv_round_trip_fault _ _ Hf); reflexivity.
Qed.

Lemma kv_lookup_tick w name : kv_lookup (tick w) name = kv_lookup w name.
Proof. reflexivity. Qed.

Lemma process_item_read_fault env name w e :
  kv_fault host (kv_ops w) = Some e ->
  process_item host env name w = (Throw e, tick w).
Proof.
  intros Hf. unfold process_item, kv_get. run.
  rewrite (kv_round_trip_fault _ _ Hf). reflexivity.
Qed.

Lemma process_item_absent env name w :
  kv_fault host (kv_ops w) = None ->
  kv_lookup w name = None ->
  process_item host env name w = (Normal tt, tick w).
Proof.
  intros Hf Hl. unfold process_item, kv_get. run.
  rewrite (kv_round_trip_ok _ Hf), kv_lookup_tick, Hl. reflexivity.
Qed.

Lemma process_item_present env name w item :
  kv_fault host (kv_ops w) = None ->
  kv_lookup w name = Some item ->
  process_item host env name w = retry_item host env name item (tick w).
Proof.
  intros Hf Hl. unfold process_item, kv_get. run.
  rewrite (kv_round_trip_ok _ Hf), kv_lookup_tick, Hl.
  destruct (retry_item host env name item (tick w)) as [[u|e] w']; reflexivity.
Qed.

(** Every way one loop body can go: it throws or finds nothing and the
    queue is untouched, or it found [item], re-attempted it with outcome
    [r] and wrote the update back under the same key. *)
Lemma process_item_frame env name w :
  exists c w',
    process_item host env name w = (c, w') /\
    now w' = now w /\ waiting w' = waiting w /\
    ((kv w' = kv w /\ (kv_lookup w name = None -> fetches w' = fetches w)) \/
     (exists item r w1,
        c = Normal tt /\ kv_lookup w name = Some item /\
        writeToNotion host (data item) env (tick w) = (Normal r, w1) /\
        kv w' = store_after name (now w) (queue_update r item) (kv w))) /\
    (c <> Normal tt -> kv w' = kv w).
Proof.
  destruct (kv_fault host (kv_ops w)) as [e|] eqn:Hf.
  { rewrite (process_item_read_fault _ _ _ _ Hf).
    eexists _, _. split; [reflexivity |]. cbn. auto 10. }
  destruct (kv_lookup w name) as [item|] eqn:Hl.
  2:{ rewrite (process_item_absent _ _ _ Hf Hl).
      eexists _, _. split; [reflexivity |]. cbn. auto 10. }
  rewrite (process_item_present _ _ _ _ Hf Hl).
  destruct (writeToNotion_total host (data item) env (tick w))
    as (r & w1 & Hr & Hkv & Hnow & Hops & _ & Hwait & _).
  destruct (kv_fault host (kv_ops w1)) as [e|] eqn:Hf1.
  - rewrite (retry_item_fault _ _ _ _ _ _ _ Hr Hf1).
    eexists _, _. split; [reflexivity |]. cbn.
    rewrite Hkv, Hnow, Hwait. cbn. split_and!; auto. left. split; [done | congruence].
  - destruct (retry_item_ok env name _ _ _ _ Hr Hf1)
      as (w2 & -> & Hkv2 & Hnow2 & _ & Hwait2 & _).
    eexists _, _. split; [reflexivity |].
    rewrite Hkv2, Hnow2, Hwait2, Hkv, Hnow, Hwait. cbn.
    split_and!; auto; [| congruence].
    right. exists item, r, w1. auto.
Qed.

Lemma guarded_item_normal env name w w' :
  process_item host env name w = (Normal tt, w') ->
  guarded_item host env name w = (Normal tt, w').
Proof. unfold guarded_item. run. intros ->. reflexivity. Qed.

Lemma guarded_item_caught env name w e w' :
  process_item host env name w = (Throw e, w') ->
  guarded_item host env name w =
    (Normal tt, set_console (console w' ++ [item_error_line name e]) w').
Proof. unfold guarded_item. run. intros ->. reflexivity. Qed.

(** An iteration of the loop never throws; it changes the queue at most
    under its own key, and only for an item it found there. *)
Lemma guarded_item_frame env name w :
  exists w',
    guarded_item host env name w = (Normal tt, w') /\
    now w' = now w /\ waiting w' = waiting w /\
    ((kv w' = kv w /\ (kv_lookup w name = None -> fetches w' = fetches w)) \/
     (exists item r w1,
        kv_lookup w name = Some item /\
        writeToNotion host (data item) env (tick w) = (Normal r, w1) /\
        kv w' = store_after name (now w) (queue_update r item) (kv w))).
Proof.
  destruct (process_item_frame env name w) as (c & w' & Hp & Hnow & Hwait & Hcases & Hthrow).
  destruct c as [[]|e].
  - rewrite (guarded_item_normal _ _ _ _ Hp). exists w'. split_and!; auto.
    destruct Hcases as [?|(item & r & w1 & _ & ? & ? & ?)]; [by left |].
    right. by exists item, r, w1.
  - rewrite (guarded_item_caught _ _ _ _ _ Hp). eexists. split; [reflexivity |]. cbn.
    split_and!; auto. left. rewrite Hthrow by discriminate.
    destruct Hcases as [[_ ?]|(? & ? & ? & ? & _)]; [done | discriminate].
Qed.

Lemma store_after_other name other t o (m : gmap string KvEntry) :
  name <> other -> store_after name t o m !! other = m !! other.
Proof.
  intros Hne. unfold store_after. destruct o.
  - by rewrite lookup_insert_ne.
  - by rewrite lookup_delete_ne.
Qed.

(** An iteration for another key leaves the pair under [name] alone. *)
Lemma guarded_item_other env name other w :
  other <> name ->
  kv (snd (guarded_item host env other w)) !! name = kv w !! name /\
  now (snd (guarded_item host env other w)) = now w.
Proof.
  intros Hne.
  destruct (guarded_item_frame env other w) as (w' & -> & Hnow & _ & Hcases). cbn.
  split; [| done].
  destruct Hcases as [[-> _]|(item & r & w1 & _ & _ & ->)]; [done |].
  by apply store_after_other.
Qed.

(** The loop over the listed keys runs to its end whatever happens to the
    single items. *)
Lemma sweep_keys_total env names w :
  exists w', sweep_keys host env names w = (Normal tt, w') /\ now w' = now w.
Proof.
  revert w. induction names as [|name rest IH]; intros w.
  - by exists w.
  - cbn [sweep_keys]. run.
    destruct (guarded_item_frame env name w) as (w1 & -> & Hnow & _).
    destruct (IH w1) as (w2 & -> & Hnow2). exists w2. split; [done | congruence].
Qed.

Lemma sweep_keys_cons env name rest w w1 :
  guarded_item host env name w = (Normal tt, w1) ->
  sweep_keys host env (name :: rest) w = sweep_keys host env rest w1.
Proof.
  intros Hg. cbn [sweep_keys]. run. rewrite Hg.
  destruct (sweep_keys host env rest w1) as [[u|e] w2]; reflexivity.
Qed.

(** A key that is not among those swept keeps its pair. *)
Lemma sweep_keys_other env names name w :
  name ∉ names ->
  kv (snd (sweep_keys host env names w)) !! name = kv w !! name.
Proof.
  revert w. induction names as [|other rest IH]; intros w Hnotin; [done |].
  apply not_elem_of_cons in Hnotin as [Hne Hrest].
  destruct (guarded_item_frame env other w) as (w1 & Hg & _).
  rewrite (sweep_keys_cons _ _ _ _ _ Hg), IH by done.
  pose proof (guarded_item_other env name other w (not_eq_sym Hne)) as [Ho _].
  by rewrite Hg in Ho.
Qed.

End Sweep.

Section Enqueue.

Variable host : Host.

(** Without a namespace the enqueue only warns. *)
Lemma queueInKV_unbound turnData env w :
  QUEUE_KV env = false ->
  queueInKV host turnData env w =
    (Normal tt,
     set_console (console w ++ [(WARN, [Text "KV namespace not configured, skipping queue"])]) w).
Proof. unfold queueInKV. intros ->. reflexivity. Qed.

(** A put that the namespace refuses is caught: nothing is stored. *)
Lemma queueInKV_fault turnData env w e :
  QUEUE_KV env = true ->
  kv_fault host (kv_ops w) = Some e ->
  exists w',
    queueInKV host turnData env w = (Normal tt, w') /\
    kv w' = kv w /\ waiting w' = waiting w /\ fetches w' = fetches w.
Proof.
  unfold queueInKV. intros -> Hf. cbn [negb]. unfold kv_put, Math_random_base36. run.
  unfold kv_round_trip. cbn [kv_ops set_randoms]. rewrite Hf.
  eexists. split; [reflexivity |]. cbn. auto.
Qed.

(** A put that the namespace accepts stores the event, with a count of 0,
    under the key built from the clock and the random draw. *)
Lemma queueInKV_ok turnData env w :
  QUEUE_KV env = true ->
  kv_fault host (kv_ops w) = None ->
  exists w',
    queueInKV host turnData env w = (Normal tt, w') /\
    kv w' = <[enqueue_key host w := enqueue_entry turnData w]> (kv w) /\
    waiting w' = waiting w /\ fetches w' = fetches w /\ now w' = now w.
Proof.
  unfold queueInKV. intros -> Hf. cbn [negb]. unfold kv_put, Math_random_base36. run.
  unfold kv_round_trip. cbn [kv_ops set_randoms]. rewrite Hf.
  eexists. split; [reflexivity |]. cbn. auto.
Qed.

(** Enqueue always returns normally. *)
Lemma queueInKV_total turnData env w :
  exists w',
    queueInKV host turnData env w = (Normal tt, w') /\
    waiting w' = waiting w /\ fetches w' = fetches w.
Proof.
  destruct (QUEUE_KV env) eqn:Hq.
  - destruct (kv_fault host (kv_ops w)) as [e|] eqn:Hf.
    + destruct (queueInKV_fault turnData env w e Hq Hf) as (w' & ? & ? & ? & ?). eauto.
    + destruct (queueInKV_ok turnData env w Hq Hf) as (w' & ? & ? & ? & ? & ?). eauto.
  - rewrite queueInKV_unbound by done. eexists. split; [reflexivity |]. cbn. auto.
Qed.

End Enqueue.

Section Handler.

Variable host : Host.

Lemma well_formed_not_null turnData : well_formed turnData = true -> turnData <> JNull.
Proof. intros H ->. discriminate. Qed.

(** The handler on a payload that passes validation, by the outcome of the
    initial attempt. *)
Lemma handle_delivered request env w turnData id w1 :
  json_body request = Normal turnData ->
  well_formed turnData = true ->
  writeToNotion host turnData env w = (Normal (Delivered id), w1) ->
  handleTurnResolved host request env w = (Normal synced_response, w1).
Proof.
  unfold well_formed, handleTurnResolved. intros Hb Hwf Hr.
  apply andb_true_iff in Hwf as [Ht Ho]. run. rewrite Hb. cbv beta iota.
  rewrite Ht, Ho. cbn [negb orb]. rewrite Hr. reflexivity.
Qed.

Lemma handle_failed request env w turnData error w1 :
  json_body request = Normal turnData ->
  well_formed turnData = true ->
  writeToNotion host turnData env w = (Normal (Failed error), w1) ->
  handleTurnResolved host request env w =
    (Normal (error_response (or_string error "Failed to write to Notion")),
     set_console
       (console w1 ++ [(ERROR, [Text "Error handling turn-resolved:";
                                Err (or_string error "Failed to write to Notion")])]) w1).
Proof.
  unfold well_formed, handleTurnResolved. intros Hb Hwf Hr.
  apply andb_true_iff in Hwf as [Ht Ho]. run. rewrite Hb. cbv beta iota.
  rewrite Ht, Ho. cbn [negb orb]. rewrite Hr. reflexivity.
Qed.

(** Handing the sweep to the runtime never throws. *)
Lemma waitUntil_processQueue_run env w :
  waitUntil_processQueue host env w = (Normal tt, handed_over host env w).
Proof.
  unfold waitUntil_processQueue, handed_over, listing_in, outcome, kv_list. run.
  unfold kv_round_trip. destruct (QUEUE_KV env); cbn [negb]; [| reflexivity].
  destruct (kv_fault host (kv_ops w)); reflexivity.
Qed.

(** It leaves the queue, the clock and the call counters alone; it costs one
    KV operation, the listing, when there is a namespace. *)
Lemma handed_over_frame env w :
  kv (handed_over host env w) = kv w /\
  now (handed_over host env w) = now w /\
  fetches (handed_over host env w) = fetches w /\
  waiting (handed_over host env w) = waiting w ++ [env] /\
  kv_ops (handed_over host env w) = (if QUEUE_KV env then S (kv_ops w) else kv_ops w).
Proof. unfold handed_over. by destruct (QUEUE_KV env). Qed.

Lemma handle_rate_limited request env w turnData hint w1 w2 :
  json_body request = Normal turnData ->
  well_formed turnData = true ->
  writeToNotion host turnData env w = (Normal (RateLimited hint), w1) ->
  queueInKV host turnData env w1 = (Normal tt, w2) ->
  handleTurnResolved host request env w =
    (Normal queued_response, handed_over host env w2).
Proof.
  unfold well_formed, handleTurnResolved. intros Hb Hwf Hr Hq.
  apply andb_true_iff in Hwf as [Ht Ho]. run. rewrite Hb. cbv beta iota.
  rewrite Ht, Ho. cbn [negb orb]. rewrite Hr, Hq, waitUntil_processQueue_run. reflexivity.
Qed.

End Handler.

(** * The claims about the delivery attempt *)

Section AttemptClaims.

Variable host : Host.

(** C4.  If either credential is absent (the access token or the database
    identifier is undefined, or the empty string), the delivery attempt
    resolves to [Failed] with the reason "Notion API credentials not
    configured", which contains "credentials not configured", and it makes
    no outbound call: the count of outbound calls is what it was (0 from a
    fresh world), and neither the queue nor its counter is touched. *)
Theorem missing_credentials_fail_without_call turnData env w :
  truthy_str (NOTION_API_KEY env) = false \/ truthy_str (NOTION_DATABASE_ID env) = false ->
  exists reason w',
    writeToNotion host turnData env w = (Normal (Failed reason), w') /\
    reason = "Notion API credentials not configured" /\
    includes reason "credentials not configured" /\
    fetches w' = fetches w /\ kv w' = kv w /\ kv_ops w' = kv_ops w.
Proof.
  intros Habsent.
  assert (Hc : configured env = false).
  { unfold configured. destruct Habsent as [-> | ->]; [done | apply andb_false_r]. }
  rewrite (writeToNotion_unconfigured host _ _ _ Hc).
  eexists _, _. split; [reflexivity |]. split; [reflexivity |].
  split; [| by cbn]. by exists "Notion API ", EmptyString.
Qed.

(** C3, as amended.  An attempt that reaches the outbound call (both
    credentials set, the event not [null]) makes exactly one call and
    classifies its outcome: status 429 yields [RateLimited] with the
    [Retry-After] header; any other non-2xx status whose body can be read
    yields [Failed] with a reason that includes the status code; a 2xx
    status whose body parses to a JSON value other than [null] yields
    [Delivered] with the [id] of that value; and every exception (of the
    call itself, of reading a non-2xx body, of parsing a 2xx body, of
    reading the [id] of a [null] body) yields [Failed] with the message of
    the exception. *)
Theorem delivery_attempt_classification turnData env w :
  configured env = true ->
  turnData <> JNull ->
  let result := fst (writeToNotion host turnData env w) in
  fetches (snd (writeToNotion host turnData env w)) = S (fetches w) /\
  match reply_in host turnData env w with
  | Throw message => result = Normal (Failed message)
  | Normal r =>
      (status r = 429 -> result = Normal (RateLimited (retry_after r))) /\
      (status r <> 429 -> ok r = false -> forall body, text r = Normal body ->
         result = Normal (Failed ("Notion API error: " +:+ dec (status r))) /\
         includes ("Notion API error: " +:+ dec (status r)) (dec (status r))) /\
      (status r <> 429 -> ok r = false -> forall message, text r = Throw message ->
         result = Normal (Failed message)) /\
      (ok r = true -> forall j, json_of r = Normal j -> j <> JNull ->
         result = Normal (Delivered (prop j "id"))) /\
      (ok r = true -> forall message, json_of r = Throw message ->
         result = Normal (Failed message)) /\
      (ok r = true -> json_of r = Normal JNull ->
         result = Normal (Failed "Cannot read properties of null (reading 'id')"))
  end.
Proof.
  intros Hc Hn result. subst result.
  rewrite (writeToNotion_configured host _ _ _ Hc Hn). cbn [fst snd].
  split; [reflexivity |].
  destruct (reply_in host turnData env w) as [r|message]; [| reflexivity].
  assert (Hok : ok r = true -> (status r =? 429) = false).
  { unfold ok. intros H. apply andb_true_iff in H as [_ H]. lia. }
  unfold classify. split_and!.
  - intros ->. reflexivity.
  - intros H429 Hnok body Hb. apply Z.eqb_neq in H429. rewrite H429, Hnok, Hb.
    split; [reflexivity |]. exists "Notion API error: ", EmptyString.
    by rewrite append_empty_r.
  - intros H429 Hnok message Hb. apply Z.eqb_neq in H429. by rewrite H429, Hnok, Hb.
  - intros H j Hj Hnull. rewrite (Hok H), H, Hj. cbn [negb].
    unfold prop. by destruct j.
  - intros H message Hj. by rewrite (Hok H), H, Hj.
  - intros H Hj. by rewrite (Hok H), H, Hj.
Qed.

End AttemptClaims.

(** C3, as stated, fails: a reply with status 200 is not classified as
    [Delivered] when its body does not parse as JSON, nor when its body is
    the JSON value [null]; in both cases the attempt is [Failed], with the
    message of the error raised while the body was read. *)
Lemma ok_status_without_id_is_failed :
  let turn := Scenario.turn "Turn 1" in
  let unparsable := writeToNotion (Scenario.always Scenario.empty_ok) turn
                      Scenario.bound Scenario.empty in
  let null := writeToNotion (Scenario.always Scenario.null_ok) turn
                Scenario.bound Scenario.empty in
  (exists r, Scenario.empty_ok = Normal r /\ status r = 200 /\ ok r = true) /\
  (exists r, Scenario.null_ok = Normal r /\ status r = 200 /\ ok r = true) /\
  fst unparsable = Normal (Failed "Unexpected end of JSON input") /\
  fst null = Normal (Failed "Cannot read properties of null (reading 'id')") /\
  ~ (exists id, fst unparsable = Normal (Delivered id)) /\
  ~ (exists id, fst null = Normal (Delivered id)).
Proof.
  cbv zeta. split_and!.
  - eexists. split; [reflexivity | split; reflexivity].
  - eexists. split; [reflexivity | split; reflexivity].
  - reflexivity.
  - reflexivity.
  - intros [id H]. vm_compute in H. discriminate.
  - intros [id H]. vm_compute in H. discriminate.
Qed.

Lemma missing_credentials_fail_without_call_witness :
  truthy_str (NOTION_API_KEY Scenario.keyless) = false /\
  fst (writeToNotion (Scenario.always Scenario.created) (Scenario.turn "Turn 1")
         Scenario.keyless Scenario.empty)
    = Normal (Failed "Notion API credentials not configured") /\
  fetches (snd (writeToNotion (Scenario.always Scenario.created) (Scenario.turn "Turn 1")
                  Scenario.keyless Scenario.empty)) = 0%nat.
Proof.
  split; [reflexivity |].
  destruct (missing_credentials_fail_without_call (Scenario.always Scenario.created)
              (Scenario.turn "Turn 1") Scenario.keyless Scenario.empty
              (or_introl eq_refl))
    as (reason & w' & -> & -> & _ & Hf & _).
  split; [reflexivity | exact Hf].
Defined.

Lemma delivery_attempt_classification_witness :
  configured Scenario.bound = true /\
  Scenario.turn "Turn 1" <> JNull /\
  fst (writeToNotion (Scenario.always Scenario.too_many) (Scenario.turn "Turn 1")
         Scenario.bound Scenario.empty)
    = Normal (RateLimited (Some "3")).
Proof.
  split; [reflexivity |]. split; [discriminate |].
  pose proof (delivery_attempt_classification (Scenario.always Scenario.too_many)
                (Scenario.turn "Turn 1") Scenario.bound Scenario.empty
                eq_refl ltac:(discriminate)) as [_ H].
  cbn in H. destruct H as [H _]. exact (H eq_refl).
Defined.

(** * The claims about the sweep *)

Section SweepClaims.

Variable host : Host.

(** The pair under [name] once the sweep has written [item] back at the
    instant of [w]. *)
Lemma store_after_lookup name t o (m : gmap string KvEntry) :
  store_after name t o m !! name =
    (fun item => {| value := item; expiration := t + 86400 * 1000 |}) <$> o.
Proof.
  unfold store_after. destruct o; cbn.
  - by rewrite lookup_insert_eq.
  - by rewrite lookup_delete_eq.
Qed.

(** An iteration whose two KV round trips succeed, for an item that is
    queued: the outcome of the re-attempt decides the update. *)
Lemma guarded_item_update env name item w r w1 :
  kv_lookup w name = Some item ->
  kv_fault host (kv_ops w) = None ->
  kv_fault host (S (kv_ops w)) = None ->
  writeToNotion host (data item) env (tick w) = (Normal r, w1) ->
  kv (snd (guarded_item host env name w)) =
    store_after name (now w) (queue_update r item) (kv w).
Proof.
  intros Hl Hf Hf' Hr.
  destruct (writeToNotion_total host (data item) env (tick w))
    as (r' & w1' & Hr' & Hkv & Hnow & Hops & _).
  rewrite Hr in Hr'. injection Hr' as <- <-.
  assert (Hf1 : kv_fault host (kv_ops w1) = None) by (by rewrite Hops).
  destruct (retry_item_ok host env name _ _ _ _ Hr Hf1) as (w2 & Hw2 & Hkv2 & _).
  rewrite (guarded_item_normal host env name w w2).
  - cbn [snd]. by rewrite Hkv2, Hkv, Hnow.
  - by rewrite (process_item_present host _ _ _ _ Hf Hl).
Qed.

(** C1.  In an iteration of the sweep for a queued item (the read and the
    write-back both accepted by the namespace), when the re-attempt returns
    [RateLimited] the count is incremented and, if the new count is below
    5, the item is put back under its key with the new count and an
    expiry 86400 seconds from now; otherwise the key is deleted.  The key
    is therefore gone after the iteration exactly when the new count has
    reached 5.  When the re-attempt returns [Failed] the same holds with
    the ceiling 3. *)
Theorem sweep_retry_budget env name item w :
  kv_lookup w name = Some item ->
  kv_fault host (kv_ops w) = None ->
  kv_fault host (S (kv_ops w)) = None ->
  let n := retries_or_0 item + 1 in
  let attempt := fst (writeToNotion host (data item) env (tick w)) in
  let after := kv (snd (guarded_item host env name w)) in
  let requeued :=
    <[name := {| value := {| data := data item; timestamp := timestamp item;
                             retries := Some n |};
                 expiration := now w + 86400 * 1000 |}]> (kv w) in
  (forall hint, attempt = Normal (RateLimited hint) ->
     (n < 5 -> after = requeued) /\
     (5 <= n -> after = delete name (kv w)) /\
     (after !! name = None <-> 5 <= n)) /\
  (forall reason, attempt = Normal (Failed reason) ->
     (n < 3 -> after = requeued) /\
     (3 <= n -> after = delete name (kv w)) /\
     (after !! name = None <-> 3 <= n)).
Proof.
  intros Hl Hf Hf' n attempt after requeued.
  destruct (writeToNotion host (data item) env (tick w)) as [c w1] eqn:Hr.
  subst attempt after requeued. cbn [fst].
  split.
  - intros hint ->.
    rewrite (guarded_item_update env name item w _ w1 Hl Hf Hf' Hr).
    unfold queue_update. fold n. destruct (Z.ltb_spec n 5) as [Hlt|Hge].
    + split_and!; [done | lia |]. cbn. rewrite lookup_insert_eq. split; [done | lia].
    + split_and!; [lia | done |]. cbn. by rewrite lookup_delete_eq.
  - intros reason ->.
    rewrite (guarded_item_update env name item w _ w1 Hl Hf Hf' Hr).
    unfold queue_update. fold n. destruct (Z.ltb_spec n 3) as [Hlt|Hge].
    + split_and!; [done | lia |]. cbn. rewrite lookup_insert_eq. split; [done | lia].
    + split_and!; [lia | done |]. cbn. by rewrite lookup_delete_eq.
Qed.

(** C5.  When the processing of one key throws (a KV operation is refused),
    the error is caught and logged, the namespace is exactly as it was, so
    the item is neither deleted nor rewritten, and the sweep goes on with
    the remaining keys and ends normally; if the key is not listed twice,
    its pair is still the same at the end of the sweep. *)
Theorem sweep_isolates_failing_item env name rest w message w' :
  process_item host env name w = (Throw message, w') ->
  let logged := set_console (console w' ++ [item_error_line name message]) w' in
  kv w' = kv w /\
  guarded_item host env name w = (Normal tt, logged) /\
  kv_lookup logged name = kv_lookup w name /\
  sweep_keys host env (name :: rest) w = sweep_keys host env rest logged /\
  (exists final, sweep_keys host env (name :: rest) w = (Normal tt, final) /\
     (name ∉ rest -> kv final !! name = kv w !! name)).
Proof.
  intros Hp logged.
  destruct (process_item_frame host env name w)
    as (c & w0 & Hp0 & Hnow & _ & _ & Hthrow).
  rewrite Hp in Hp0. injection Hp0 as <- <-.
  assert (Hkv : kv w' = kv w) by (apply Hthrow; discriminate).
  pose proof (guarded_item_caught host env name w message w' Hp) as Hg.
  fold logged in Hg.
  split_and!; [done | done | | by apply sweep_keys_cons |].
  - unfold kv_lookup, logged. cbn. by rewrite Hkv, Hnow.
  - rewrite (sweep_keys_cons host env name rest w logged Hg).
    destruct (sweep_keys_total host env rest logged) as (final & Hs & _).
    exists final. split; [done |]. intros Hnotin.
    pose proof (sweep_keys_other host env rest name logged Hnotin) as Ho.
    rewrite Hs in Ho. cbn [snd] in Ho. rewrite Ho. unfold logged. cbn. by rewrite Hkv.
Qed.

(** C10.  When an iteration of the sweep leaves a different pair under the
    key of a queued item, that is, when it re-persists the item, the stored
    record has the same [data] and the same [timestamp]; its [retries] is
    the stored count plus one, and 1 when the stored record has no count;
    and every other key of the namespace is untouched. *)
Theorem requeue_changes_only_retries env name item w entry :
  kv_lookup w name = Some item ->
  let after := kv (snd (guarded_item host env name w)) in
  after !! name = Some entry ->
  after !! name <> kv w !! name ->
  data (value entry) = data item /\
  timestamp (value entry) = timestamp item /\
  retries (value entry) =
    Some (match retries item with Some n => n + 1 | None => 1 end) /\
  (forall other, other <> name -> after !! other = kv w !! other).
Proof.
  assert (Hcount : retries_or_0 item + 1 =
                   match retries item with Some n => n + 1 | None => 1 end).
  { unfold retries_or_0. destruct (retries item) as [n|]; [| done].
    destruct (Z.eqb_spec n 0); [subst; done | done]. }
  intros Hl after He Hne. subst after.
  destruct (guarded_item_frame host env name w) as (w' & Hg & _ & _ & Hcases).
  rewrite Hg in *. cbn [snd] in *.
  destruct Hcases as [[Hkv _]|(item' & r & w1 & Hl' & _ & Hkv)].
  { by rewrite Hkv in Hne. }
  rewrite Hl in Hl'. injection Hl' as <-.
  rewrite Hkv, store_after_lookup in He. rewrite Hkv.
  split_and!; [| | | by intros other Ho; apply store_after_other].
  all: unfold queue_update in He;
    destruct r; [discriminate | |];
    match type of He with context [if ?b then _ else _] => destruct b end;
    try discriminate; injection He as <-; cbn; by rewrite ?Hcount.
Qed.

(** C6, as amended.  Sweeps that do not overlap keep the retry count
    strictly increasing and deletion final.  If an iteration completes for
    a queued item and the item is still queued afterwards, its count is the
    old count plus one.  A key under which nothing is queued (never
    written, deleted, or expired) is not re-attempted by an iteration (no
    outbound call is made) and is still without an item after any sweep
    over any list of keys, and after [processQueue]. *)
Theorem sequential_sweep_monotone_and_terminal env name w :
  (forall item item' w',
     process_item host env name w = (Normal tt, w') ->
     kv_lookup w name = Some item ->
     kv_lookup w' name = Some item' ->
     retries item' = Some (retries_or_0 item + 1) /\
     retries_or_0 item < retries_or_0 item') /\
  (kv_lookup w name = None ->
     fetches (snd (guarded_item host env name w)) = fetches w /\
     (forall names, kv_lookup (snd (sweep_keys host env names w)) name = None) /\
     kv_lookup (snd (processQueue host env w)) name = None).
Proof.
  split.
  - intros item item' w' Hp Hl Hl'.
    destruct (process_item_frame host env name w)
      as (c & w0 & Hp0 & Hnow & _ & Hcases & _).
    rewrite Hp in Hp0. injection Hp0 as <- <-.
    assert (Hfaults : kv_fault host (kv_ops w) = None).
    { destruct (kv_fault host (kv_ops w)) as [e|] eqn:Hf; [| done].
      by rewrite (process_item_read_fault host _ _ _ _ Hf) in Hp. }
    rewrite (process_item_present host _ _ _ _ Hfaults Hl) in Hp.
    destruct (writeToNotion_total host (data item) env (tick w))
      as (r & w1 & Hr & Hkv & Hnow1 & _).
    destruct (kv_fault host (kv_ops w1)) as [e|] eqn:Hf1.
    { by rewrite (retry_item_fault host _ _ _ _ _ _ _ Hr Hf1) in Hp. }
    destruct (retry_item_ok host env name _ _ _ _ Hr Hf1) as (w2 & Hw2 & Hkv2 & _).
    rewrite Hw2 in Hp. injection Hp as <-.
    unfold kv_lookup in Hl'. rewrite Hkv2, store_after_lookup in Hl'.
    assert (Hq : queue_update r item = Some item').
    { destruct (queue_update r item); cbn in Hl'; [| done].
      by destruct (live _ _). }
    assert (Hi : item' = set_retries (retries_or_0 item + 1) item).
    { unfold queue_update in Hq. destruct r; [done | |];
        match type of Hq with context [if ?b then _ else _] => destruct b end;
        congruence. }
    subst item'. split; [done |].
    change (retries_or_0 (set_retries (retries_or_0 item + 1) item))
      with (if retries_or_0 item + 1 =? 0 then 0 else retries_or_0 item + 1).
    destruct (Z.eqb_spec (retries_or_0 item + 1) 0); lia.
  - intros Hl.
    assert (Hstep : forall other v,
              kv_lookup v name = None ->
              kv_lookup (snd (guarded_item host env other v)) name = None).
    { intros other v Hv. destruct (decide (other = name)) as [->|Hne].
      - destruct (guarded_item_frame host env name v) as (v' & -> & Hnow & _ & Hcases).
        cbn [snd]. destruct Hcases as [[Hkv _]|(item & _ & _ & Hsome & _)].
        + unfold kv_lookup in *. by rewrite Hkv, Hnow.
        + congruence.
      - destruct (guarded_item_other host env name other v Hne) as [Hkv Hnow].
        unfold kv_lookup in *. by rewrite Hkv, Hnow. }
    assert (Hsweep : forall names v,
              kv_lookup v name = None ->
              kv_lookup (snd (sweep_keys host env names v)) name = None).
    { induction names as [|other rest IH]; intros v Hv; [done |].
      destruct (guarded_item_frame host env other v) as (v' & Hg & _).
      rewrite (sweep_keys_cons host env other rest v v' Hg). apply IH.
      specialize (Hstep other v Hv). by rewrite Hg in Hstep. }
    split_and!.
    + destruct (guarded_item_frame host env name w) as (w' & -> & _ & _ & Hcases).
      cbn [snd]. destruct Hcases as [[_ Hfetch]|(item & _ & _ & Hsome & _)];
        [by apply Hfetch | congruence].
    + intros names. by apply Hsweep.
    + unfold processQueue. destruct (QUEUE_KV env); cbn [negb]; [| done].
      unfold kv_list. run. unfold kv_round_trip.
      destruct (kv_fault host (kv_ops w)); cbn [snd]; [done |].
      match goal with |- context [sweep_keys host env ?l ?v] =>
        pose proof (Hsweep l v Hl) as Hs;
        destruct (sweep_keys_total host env l v) as (final & Hfinal & _) end.
      rewrite Hfinal in Hs |- *. exact Hs.
Qed.

End SweepClaims.

(** C6, as stated, fails when two sweeps overlap.  Sweep A reads the item;
    sweep B then handles the same key in full, delivers the item and
    deletes it; sweep A resumes with the copy it read, is rate limited, and
    puts the item back: the deleted item has been re-attempted and
    re-persisted. *)
Lemma overlapping_sweeps_requeue_deleted_item :
  let h := Scenario.scripted [Scenario.created; Scenario.too_many] [] in
  let item := Scenario.queued "a" (Some 0) in
  let w0 := Scenario.holding item in
  let a_read := kv_get h Scenario.k1 w0 in
  let w_b := snd (guarded_item h Scenario.bound Scenario.k1 (snd a_read)) in
  let w_a := snd (retry_item h Scenario.bound Scenario.k1 item w_b) in
  fst a_read = Normal (Some item) /\
  kv_lookup w_b Scenario.k1 = None /\
  fetches w_b = 1%nat /\
  kv_lookup w_a Scenario.k1 = Some (set_retries 1 item) /\
  fetches w_a = 2%nat.
Proof. vm_compute. auto. Qed.

Lemma sweep_retry_budget_witness :
  let h := Scenario.always Scenario.too_many in
  let item := Scenario.queued "a" (Some 4) in
  let w := Scenario.holding item in
  kv_lookup w Scenario.k1 = Some item /\
  kv_fault h (kv_ops w) = None /\
  kv_fault h (S (kv_ops w)) = None /\
  kv (snd (guarded_item h Scenario.bound Scenario.k1 w)) !! Scenario.k1 = None.
Proof.
  cbv zeta. split_and!; [reflexivity.. |].
  destruct (sweep_retry_budget (Scenario.always Scenario.too_many) Scenario.bound
              Scenario.k1 (Scenario.queued "a" (Some 4))
              (Scenario.holding (Scenario.queued "a" (Some 4)))
              ltac:(vm_compute; reflexivity) eq_refl eq_refl) as [Hrl _].
  destruct (Hrl (Some "3") ltac:(vm_compute; reflexivity)) as (_ & _ & Hiff).
  apply Hiff. vm_compute. discriminate.
Defined.

Lemma sweep_isolates_failing_item_witness :
  let h := Scenario.scripted [Scenario.created] [0%nat] in
  let item := Scenario.queued "a" (Some 1) in
  let w := Scenario.holding item in
  process_item h Scenario.bound Scenario.k1 w = (Throw "KV unavailable", tick w) /\
  exists final,
    sweep_keys h Scenario.bound [Scenario.k1; Scenario.k2] w = (Normal tt, final) /\
    kv final !! Scenario.k1 = Some (Scenario.fresh item).
Proof.
  cbv zeta. split; [reflexivity |].
  destruct (sweep_isolates_failing_item
              (Scenario.scripted [Scenario.created] [0%nat]) Scenario.bound
              Scenario.k1 [Scenario.k2]
              (Scenario.holding (Scenario.queued "a" (Some 1)))
              "KV unavailable" _ ltac:(vm_compute; reflexivity))
    as (_ & _ & _ & _ & final & Hfinal & Hkept).
  exists final. split; [exact Hfinal |].
  rewrite Hkept; [reflexivity |].
  intros Hin. apply list_elem_of_singleton in Hin. discriminate.
Defined.

Lemma requeue_changes_only_retries_witness :
  let h := Scenario.always Scenario.too_many in
  let item := Scenario.queued "a" (Some 3) in
  let w := Scenario.holding item in
  let after := kv (snd (guarded_item h Scenario.bound Scenario.k1 w)) in
  let entry := Scenario.fresh (Scenario.queued "a" (Some 4)) in
  kv_lookup w Scenario.k1 = Some item /\
  after !! Scenario.k1 = Some entry /\
  after !! Scenario.k1 <> kv w !! Scenario.k1 /\
  retries item = Some 3 /\
  retries (value entry) = Some 4 /\
  data (value entry) = data item /\
  timestamp (value entry) = timestamp item.
Proof.
  cbv zeta.
  assert (Hne : kv (snd (guarded_item (Scenario.always Scenario.too_many) Scenario.bound
                           Scenario.k1
                           (Scenario.holding (Scenario.queued "a" (Some 3)))))
                  !! Scenario.k1
                <> kv (Scenario.holding (Scenario.queued "a" (Some 3)))
                     !! Scenario.k1).
  { vm_compute. discriminate. }
  destruct (requeue_changes_only_retries (Scenario.always Scenario.too_many) Scenario.bound
              Scenario.k1 (Scenario.queued "a" (Some 3))
              (Scenario.holding (Scenario.queued "a" (Some 3)))
              (Scenario.fresh (Scenario.queued "a" (Some 4)))
              ltac:(vm_compute; reflexivity) ltac:(vm_compute; reflexivity) Hne)
    as (Hdata & Hstamp & Hcount & _).
  split_and!; [reflexivity | vm_compute; reflexivity | exact Hne | reflexivity
              | exact Hcount | exact Hdata | exact Hstamp].
Defined.

Lemma sequential_sweep_monotone_and_terminal_witness :
  let h := Scenario.always Scenario.too_many in
  let item := Scenario.queued "a" (Some 2) in
  let w := Scenario.holding item in
  (kv_lookup w Scenario.k1 = Some item /\
   retries_or_0 item < retries_or_0 (Scenario.queued "a" (Some 3))) /\
  (kv_lookup w Scenario.k2 = None /\
   kv_lookup (snd (processQueue h Scenario.bound w)) Scenario.k2 = None).
Proof.
  cbv zeta. split.
  - split; [reflexivity |].
    refine (proj2 (proj1
      (sequential_sweep_monotone_and_terminal (Scenario.always Scenario.too_many)
         Scenario.bound Scenario.k1
         (Scenario.holding (Scenario.queued "a" (Some 2))))
      (Scenario.queued "a" (Some 2)) (Scenario.queued "a" (Some 3))
      (snd (process_item (Scenario.always Scenario.too_many) Scenario.bound Scenario.k1
              (Scenario.holding (Scenario.queued "a" (Some 2)))))
      _ _ _)); vm_compute; reflexivity.
  - split; [reflexivity |].
    exact (proj2 (proj2 (proj2
      (sequential_sweep_monotone_and_terminal (Scenario.always Scenario.too_many)
         Scenario.bound Scenario.k2
         (Scenario.holding (Scenario.queued "a" (Some 2))))
      ltac:(vm_compute; reflexivity)))).
Defined.

(** * The claims about the inbound request and the enqueue *)

Section HandlerClaims.

Variable host : Host.

(** C2, as amended.  For every event that passes validation, the outcome of
    the initial attempt decides the continuation.  Delivered: the caller
    gets the 200 "synced" response, the queue is unchanged and no sweep is
    started.  Rate limited: the caller gets the 202 "queued" response (not
    an error) and a sweep is handed to the runtime; when the KV namespace
    is bound and accepts the put, the queue gains, under the fresh key, the
    event with [retries = 0] and an expiry 86400 seconds ahead.  Failed:
    the caller gets the 500 response carrying the error, the queue is
    unchanged and no sweep is started. *)
Theorem initial_attempt_continuations request env w turnData result w1 :
  json_body request = Normal turnData ->
  well_formed turnData = true ->
  writeToNotion host turnData env w = (Normal result, w1) ->
  let out := handleTurnResolved host request env w in
  match result with
  | Delivered _ =>
      fst out = Normal synced_response /\
      kv (snd out) = kv w /\ waiting (snd out) = waiting w
  | RateLimited _ =>
      fst out = Normal queued_response /\
      waiting (snd out) = waiting w ++ [env] /\
      (QUEUE_KV env = true -> kv_fault host (kv_ops w) = None ->
       kv (snd out) =
         <[queue_key (now w) (random_base36 host (randoms w)) :=
             {| value := {| data := turnData; timestamp := now w; retries := Some 0 |};
                expiration := now w + 86400 * 1000 |}]> (kv w))
  | Failed error =>
      fst out = Normal (error_response (or_string error "Failed to write to Notion")) /\
      kv (snd out) = kv w /\ waiting (snd out) = waiting w
  end.
Proof.
  intros Hb Hwf Hr out. subst out.
  destruct (writeToNotion_total host turnData env w)
    as (r' & w1' & Hr' & Hkv & Hnow & Hops & Hrand & Hwait & _).
  rewrite Hr in Hr'. injection Hr' as <- <-.
  destruct result as [id | hint | error].
  - rewrite (handle_delivered host _ _ _ _ _ _ Hb Hwf Hr). by cbn.
  - destruct (queueInKV_total host turnData env w1) as (w2 & Hq & Hwait2 & _).
    rewrite (handle_rate_limited host _ _ _ _ _ _ _ Hb Hwf Hr Hq). cbn [fst snd].
    destruct (handed_over_frame host env w2) as (-> & _ & _ & -> & _).
    split_and!; [done | by rewrite Hwait2, Hwait |].
    intros Hbound Hf. rewrite <- Hops in Hf.
    destruct (queueInKV_ok host turnData env w1 Hbound Hf) as (w2' & Hq' & Hkv2 & _).
    rewrite Hq in Hq'. injection Hq' as <-.
    rewrite Hkv2. unfold enqueue_key, enqueue_entry. by rewrite Hkv, Hnow, Hrand.
  - rewrite (handle_failed host _ _ _ _ _ _ Hb Hwf Hr). by cbn.
Qed.

(** A request whose body cannot be parsed, or parses to a value that
    fails the validation of the handler ([null], a boolean, a number or a
    string), is rejected at once, with status 500 and the parse error in
    the first case and status 400 "Invalid request body" in the second.
    No outbound call and no KV operation is made, the queue is unchanged
    and no sweep is started, so no queue entry is ever created for it. *)
Theorem malformed_payload_rejected request env w :
  match json_body request with
  | Throw _ => True
  | Normal turnData => well_formed turnData = false
  end ->
  let out := handleTurnResolved host request env w in
  fst out =
    Normal match json_body request with
           | Throw message => error_response message
           | Normal _ => invalid_response
           end /\
  kv (snd out) = kv w /\ fetches (snd out) = fetches w /\
  kv_ops (snd out) = kv_ops w /\ waiting (snd out) = waiting w.
Proof.
  intros Hm out. subst out. unfold handleTurnResolved. run.
  destruct (json_body request) as [turnData|message]; cbv beta iota.
  - unfold well_formed in Hm.
    replace (negb (truthy turnData) || negb (String.eqb (typeof turnData) "object"))
      with true by (by destruct (truthy turnData), (String.eqb (typeof turnData) "object")).
    by cbn.
  - by cbn.
Qed.

(** C9.  When the initial attempt is rate limited and the KV namespace is
    not bound, or refuses the put, the enqueue returns normally and the
    queue is what it was; the caller still gets the 202 "queued" response.
    That response is the one every rate-limited request gets, on any host
    and with any bindings, so the caller cannot tell a dropped event from a
    persisted one. *)
Theorem unavailable_queue_reports_queued request env w turnData hint w1 :
  json_body request = Normal turnData ->
  well_formed turnData = true ->
  writeToNotion host turnData env w = (Normal (RateLimited hint), w1) ->
  QUEUE_KV env = false \/ (exists e, kv_fault host (kv_ops w) = Some e) ->
  let out := handleTurnResolved host request env w in
  (exists w2, queueInKV host turnData env w1 = (Normal tt, w2) /\ kv w2 = kv w) /\
  fst out = Normal queued_response /\
  kv (snd out) = kv w /\
  (forall host' request' env' w' turnData' hint' w1',
     json_body request' = Normal turnData' ->
     well_formed turnData' = true ->
     writeToNotion host' turnData' env' w' = (Normal (RateLimited hint'), w1') ->
     fst (handleTurnResolved host' request' env' w') = fst out).
Proof.
  intros Hb Hwf Hr Hdown out. subst out.
  destruct (writeToNotion_total host turnData env w)
    as (r' & w1' & Hr' & Hkv & _ & Hops & _).
  rewrite Hr in Hr'. injection Hr' as <- <-.
  assert (Hq : exists w2, queueInKV host turnData env w1 = (Normal tt, w2) /\ kv w2 = kv w).
  { destruct Hdown as [Hunbound | [e Hf]].
    - rewrite (queueInKV_unbound host _ _ _ Hunbound). eexists. split; [done |].
      cbn. by rewrite Hkv.
    - destruct (QUEUE_KV env) eqn:Hbound.
      + rewrite <- Hops in Hf.
        destruct (queueInKV_fault host turnData env w1 e Hbound Hf) as (w2 & ? & Hkv2 & _).
        exists w2. split; [done |]. by rewrite Hkv2, Hkv.
      + rewrite (queueInKV_unbound host _ _ _ Hbound). eexists. split; [done |].
        cbn. by rewrite Hkv. }
  destruct Hq as (w2 & Hq & Hkv2).
  rewrite (handle_rate_limited host _ _ _ _ _ _ _ Hb Hwf Hr Hq). cbn [fst snd].
  split_and!; [by exists w2 | done | |].
  { by destruct (handed_over_frame host env w2) as (-> & _). }
  intros host' request' env' w' turnData' hint' w1'' Hb' Hwf' Hr''.
  destruct (queueInKV_total host' turnData' env' w1'') as (w2' & Hq' & _).
  by rewrite (handle_rate_limited host' _ _ _ _ _ _ _ Hb' Hwf' Hr'' Hq').
Qed.

End HandlerClaims.

(** C7.  The code at the failing input: a request whose body is the JSON
    array [[1, 2]], not an object, passes the validation of the handler
    because its [typeof] is ["object"].  It is not rejected: when Notion
    answers 429 the caller gets the 202 "queued" answer and a queue entry
    holding the array is created; when Notion accepts, the caller gets
    200. *)
Lemma array_payload_is_queued :
  let body := JArr [JNum 1; JNum 2] in
  let request := Scenario.post (Normal body) in
  let limited := handleTurnResolved (Scenario.always Scenario.too_many) request
                   Scenario.bound Scenario.empty in
  let accepted := handleTurnResolved (Scenario.always Scenario.created) request
                    Scenario.bound Scenario.empty in
  typeof body = "object" /\
  fst limited = Normal queued_response /\
  http_status queued_response = 202 /\
  kv (snd limited) !! Scenario.k1 =
    Some {| value := {| data := body; timestamp := Scenario.start; retries := Some 0 |};
            expiration := Scenario.start + 86400 * 1000 |} /\
  fst accepted = Normal synced_response /\
  fetches (snd accepted) = 1%nat.
Proof. vm_compute. auto 10. Qed.

(** What the validation of the handler lets through: objects and arrays. *)
Lemma well_formed_iff turnData :
  well_formed turnData = true <->
  (exists fields, turnData = JObj fields) \/ (exists items, turnData = JArr items).
Proof.
  split.
  - destruct turnData as [|b|n|s|items|fields]; unfold well_formed; cbn [typeof];
      rewrite ?andb_false_r; try discriminate; eauto.
  - by intros [[? ->]|[? ->]].
Qed.

(** C8, as amended.  Two queue keys are equal exactly when they were built
    at the same instant from the same random suffix; so the keys of two
    enqueues are distinct whenever their instants differ or their suffixes
    differ, and only then. *)
Theorem queue_keys_collide_iff t1 random1 t2 random2 :
  queue_key t1 random1 = queue_key t2 random2 <->
  t1 = t2 /\ substr 2 9 random1 = substr 2 9 random2.
Proof.
  split; [apply queue_key_inj |].
  unfold queue_key. by intros [-> ->].
Qed.

(** C8, as stated, fails: two enqueues made in the same millisecond whose
    random draws agree build the same key, and the second event overwrites
    the first in the queue. *)
Lemma same_instant_same_draw_collide :
  let h := Scenario.always Scenario.too_many in
  let w0 := Scenario.empty in
  let w1 := snd (queueInKV h (Scenario.turn "first") Scenario.bound w0) in
  let w2 := snd (queueInKV h (Scenario.turn "second") Scenario.bound w1) in
  enqueue_key h w0 = enqueue_key h w1 /\
  kv w1 !! enqueue_key h w0 = Some (enqueue_entry (Scenario.turn "first") w0) /\
  kv w2 !! enqueue_key h w1 = Some (enqueue_entry (Scenario.turn "second") w1) /\
  size (kv w2) = 1%nat.
Proof. vm_compute. auto. Qed.

(** C2, as stated, fails: with no KV namespace bound, a rate-limited event
    is answered "queued" although no queue entry is persisted, neither by
    the handler nor by the sweep it starts. *)
Lemma rate_limited_without_namespace_not_persisted :
  let h := Scenario.always Scenario.too_many in
  let out := handleTurnResolved h (Scenario.post (Normal (Scenario.turn "Turn 1")))
               Scenario.unbound Scenario.empty in
  fst (writeToNotion h (Scenario.turn "Turn 1") Scenario.unbound Scenario.empty)
    = Normal (RateLimited (Some "3")) /\
  fst out = Normal queued_response /\
  kv (snd out) = ∅ /\
  kv (snd (settle h (snd out))) = ∅.
Proof. vm_compute. auto. Qed.

Lemma initial_attempt_continuations_witness :
  let h := Scenario.always Scenario.too_many in
  let request := Scenario.post (Normal (Scenario.turn "Turn 1")) in
  let out := handleTurnResolved h request Scenario.bound Scenario.empty in
  json_body request = Normal (Scenario.turn "Turn 1") /\
  well_formed (Scenario.turn "Turn 1") = true /\
  fst out = Normal queued_response /\
  kv (snd out) !! Scenario.k1
    = Some (Scenario.fresh (Scenario.queued "Turn 1" (Some 0))).
Proof.
  cbv zeta. split; [reflexivity |]. split; [reflexivity |].
  pose proof (initial_attempt_continuations (Scenario.always Scenario.too_many)
                (Scenario.post (Normal (Scenario.turn "Turn 1"))) Scenario.bound
                Scenario.empty (Scenario.turn "Turn 1") (RateLimited (Some "3")) _
                eq_refl eq_refl ltac:(vm_compute; reflexivity)) as (Hresp & _ & Hkv).
  split; [exact Hresp |].
  rewrite (Hkv eq_refl eq_refl). vm_compute. reflexivity.
Defined.

Lemma malformed_payload_rejected_witness :
  well_formed (JStr "invalid json") = false /\
  fst (handleTurnResolved (Scenario.always Scenario.too_many)
         (Scenario.post (Normal (JStr "invalid json"))) Scenario.bound Scenario.empty)
    = Normal invalid_response /\
  fst (handleTurnResolved (Scenario.always Scenario.too_many)
         (Scenario.post (Throw "Unexpected token i in JSON at position 0"))
         Scenario.bound Scenario.empty)
    = Normal (error_response "Unexpected token i in JSON at position 0").
Proof.
  split; [reflexivity |]. split.
  - exact (proj1 (malformed_payload_rejected (Scenario.always Scenario.too_many)
                    (Scenario.post (Normal (JStr "invalid json"))) Scenario.bound
                    Scenario.empty eq_refl)).
  - exact (proj1 (malformed_payload_rejected (Scenario.always Scenario.too_many)
                    (Scenario.post (Throw "Unexpected token i in JSON at position 0"))
                    Scenario.bound Scenario.empty I)).
Defined.

Lemma unavailable_queue_reports_queued_witness :
  let h := Scenario.scripted [Scenario.too_many] [0%nat] in
  let request := Scenario.post (Normal (Scenario.turn "Turn 1")) in
  let out := handleTurnResolved h request Scenario.bound Scenario.empty in
  json_body request = Normal (Scenario.turn "Turn 1") /\
  well_formed (Scenario.turn "Turn 1") = true /\
  (exists e, kv_fault h (kv_ops Scenario.empty) = Some e) /\
  fst out = Normal queued_response /\
  kv (snd out) = kv Scenario.empty.
Proof.
  cbv zeta. split; [reflexivity |]. split; [reflexivity |].
  split; [by exists "KV unavailable" |].
  pose proof (unavailable_queue_reports_queued
                (Scenario.scripted [Scenario.too_many] [0%nat])
                (Scenario.post (Normal (Scenario.turn "Turn 1"))) Scenario.bound
                Scenario.empty (Scenario.turn "Turn 1") (Some "3") _
                eq_refl eq_refl ltac:(vm_compute; reflexivity)
                (or_intror (ex_intro _ "KV unavailable" eq_refl)))
    as (_ & Hresp & Hkv & _).
  split; [exact Hresp | exact Hkv].
Defined.

Lemma queue_keys_collide_iff_witness :
  queue_key 1700000000000 "0.4fzyo82mvyr" <> queue_key 1700000000001 "0.4fzyo82mvyr".
Proof.
  intros H. apply (queue_keys_collide_iff 1700000000000 "0.4fzyo82mvyr"
                     1700000000001 "0.4fzyo82mvyr") in H as [H _].
  discriminate H.
Defined.

(** * Runs of the worker *)

(** An item that keeps being rate limited is still queued after four
    sweeps, with a count of 4, and is gone after the fifth. *)
Example rate_limited_item_lasts_four_sweeps :
  let h := Scenario.always Scenario.too_many in
  let w := Scenario.holding (Scenario.queued "a" (Some 0)) in
  kv_lookup (Scenario.sweeps h Scenario.bound Scenario.k1 4 w) Scenario.k1
    = Some (Scenario.queued "a" (Some 4)) /\
  kv_lookup (Scenario.sweeps h Scenario.bound Scenario.k1 5 w) Scenario.k1 = None.
Proof. vm_compute. auto. Qed.

(** An item that keeps failing is still queued after two sweeps, with a
    count of 2, and is gone after the third. *)
Example failing_item_lasts_two_sweeps :
  let h := Scenario.always Scenario.server_error in
  let w := Scenario.holding (Scenario.queued "a" (Some 0)) in
  kv_lookup (Scenario.sweeps h Scenario.bound Scenario.k1 2 w) Scenario.k1
    = Some (Scenario.queued "a" (Some 2)) /\
  kv_lookup (Scenario.sweeps h Scenario.bound Scenario.k1 3 w) Scenario.k1 = None.
Proof. vm_compute. auto. Qed.

(** An item that is delivered on its second sweep is deleted at once and
    a third sweep makes no further call. *)
Example delivered_on_second_sweep :
  let h := Scenario.scripted [Scenario.too_many; Scenario.created] [] in
  let w := Scenario.holding (Scenario.queued "a" (Some 0)) in
  kv_lookup (Scenario.sweeps h Scenario.bound Scenario.k1 2 w) Scenario.k1 = None /\
  fetches (Scenario.sweeps h Scenario.bound Scenario.k1 2 w) = 2%nat /\
  fetches (Scenario.sweeps h Scenario.bound Scenario.k1 3 w) = 2%nat.
Proof. vm_compute. auto. Qed.

(** Once its 24 hours are over an item is no longer listed, and a sweep
    makes no call for it. *)
Example expired_item_is_not_swept :
  let h := Scenario.always Scenario.created in
  let w := elapse (86400 * 1000) (Scenario.holding (Scenario.queued "a" (Some 0))) in
  kv_lookup w Scenario.k1 = None /\
  fetches (snd (processQueue h Scenario.bound w)) = 0%nat.
Proof. vm_compute. auto. Qed.

(** A sweep of an empty queue lists the keys and does nothing else. *)
Example sweep_of_empty_queue :
  let out := processQueue (Scenario.always Scenario.created) Scenario.bound Scenario.empty in
  fst out = Normal tt /\ kv (snd out) = ∅ /\ fetches (snd out) = 0%nat /\
  console (snd out) = [].
Proof. vm_compute. auto. Qed.

(** Anything but [POST /turn-resolved] is answered 404 without any effect. *)
Lemma worker_fetch_not_found host request env w :
  (String.eqb (pathname request) "/turn-resolved" && String.eqb (method request) "POST")
    = false ->
  worker_fetch host request env w =
    (Normal {| http_status := 404; http_headers := []; http_body := Plain "Not Found" |}, w).
Proof. unfold worker_fetch. intros ->. reflexivity. Qed.

(** * Further properties of the delivery attempt *)

Section AttemptMore.

Variable host : Host.

(** The number of outbound calls of an attempt, by cases. *)
Lemma writeToNotion_calls turnData env w :
  fetches (snd (writeToNotion host turnData env w)) =
    if configured env
    then match turnData with JNull => fetches w | _ => S (fetches w) end
    else fetches w.
Proof.
  destruct (configured env) eqn:Hc.
  - destruct turnData;
      try (rewrite writeToNotion_configured by (done || discriminate); reflexivity).
    destruct (writeToNotion_null host env w Hc) as [message ->]. reflexivity.
  - by rewrite (writeToNotion_unconfigured host _ _ _ Hc).
Qed.

(** X1.  An attempt never throws: whatever the reply, the body that cannot
    be read or the network error, it returns a result.  It does not touch
    the queue, performs no KV operation, starts no sweep, and makes one
    outbound call when both secrets are set and the event is not [null],
    none otherwise; it never retries by itself. *)
Theorem attempt_is_contained turnData env w :
  let out := writeToNotion host turnData env w in
  (exists result, fst out = Normal result) /\
  kv (snd out) = kv w /\ kv_ops (snd out) = kv_ops w /\
  now (snd out) = now w /\ waiting (snd out) = waiting w /\
  fetches (snd out) =
    (if configured env
     then match turnData with JNull => fetches w | _ => S (fetches w) end
     else fetches w).
Proof.
  cbv zeta. pose proof (writeToNotion_calls turnData env w) as Hcalls.
  destruct (writeToNotion_total host turnData env w)
    as (r & w' & Hr & Hkv & Hnow & Hops & _ & Hwait & _).
  rewrite Hr in *. cbn [fst snd] in *. split_and!; eauto.
Qed.

(** X2.  The page that is sent always has a title whose text is truthy: the
    name of the event when that is truthy, and otherwise the generated
    "Turn <now>".  It always has the delivery timestamp; it has a [Status]
    exactly when the event has a truthy status and a [Description] exactly
    when it has a truthy description. *)
Theorem page_properties_shape name label description t :
  let page := page_properties host name label description t in
  (exists content,
     prop page "Name" = Some (JObj [("title", rich_text content)]) /\
     truthy content = true /\
     (truthy_val name = true -> name = Some content) /\
     (truthy_val name = false -> content = JStr ("Turn " +:+ dec t))) /\
  (prop page "Status" = None <-> truthy_val label = false) /\
  (prop page "Description" = None <-> truthy_val description = false) /\
  prop page "Timestamp" =
    Some (JObj [("date", JObj [("start", JStr (toISOString host t))])]).
Proof.
  cbv zeta. unfold page_properties, prop, get_prop. split_and!.
  - exists (or_text name ("Turn " +:+ dec t)). split; [reflexivity |].
    unfold or_text, truthy_val. destruct name as [j|].
    + destruct (truthy j) eqn:Hj; split_and!; try done.
    + split_and!; done.
  - destruct (truthy_val label), (truthy_val description); cbn; split; congruence.
  - destruct (truthy_val label), (truthy_val description); cbn; split; congruence.
  - destruct (truthy_val label), (truthy_val description); reflexivity.
Qed.

End AttemptMore.

(** * Further properties of the request handler *)

Section HandlerMore.

Variable host : Host.

Lemma or_string_nonempty a b : b <> EmptyString -> or_string a b <> EmptyString.
Proof.
  unfold or_string. intros Hb. destruct (String.eqb_spec a EmptyString); congruence.
Qed.

(** What an enqueue costs: no outbound call, at most one KV operation, and a
    change of the queue at most under the key it builds. *)
Lemma queueInKV_effect turnData env w :
  exists w',
    queueInKV host turnData env w = (Normal tt, w') /\
    waiting w' = waiting w /\ fetches w' = fetches w /\ now w' = now w /\
    (kv_ops w <= kv_ops w' <= S (kv_ops w))%nat /\
    (kv w' = kv w \/
     kv w' = <[enqueue_key host w := enqueue_entry turnData w]> (kv w)).
Proof.
  destruct (QUEUE_KV env) eqn:Hq.
  - unfold queueInKV. rewrite Hq. cbn [negb]. unfold kv_put, Math_random_base36. run.
    unfold kv_round_trip. cbn [kv_ops set_randoms].
    destruct (kv_fault host (kv_ops w)); eexists; (split; [reflexivity |]); cbn;
      split_and!; auto; lia.
  - rewrite queueInKV_unbound by done. eexists. split; [reflexivity |]. cbn.
    split_and!; auto; lia.
Qed.

(** An enqueue costs one KV operation when there is a namespace. *)
Lemma queueInKV_ops turnData env w :
  kv_ops (snd (queueInKV host turnData env w)) =
    if QUEUE_KV env then S (kv_ops w) else kv_ops w.
Proof.
  destruct (QUEUE_KV env) eqn:Hq.
  - unfold queueInKV. rewrite Hq. cbn [negb]. unfold kv_put, Math_random_base36. run.
    unfold kv_round_trip. cbn [kv_ops set_randoms].
    by destruct (kv_fault host (kv_ops w)).
  - by rewrite queueInKV_unbound.
Qed.

Lemma handle_invalid request env w v :
  json_body request = Normal v ->
  well_formed v = false ->
  handleTurnResolved host request env w = (Normal invalid_response, w).
Proof.
  intros Hb Hwf. unfold handleTurnResolved. run. rewrite Hb. cbv beta iota.
  unfold well_formed in Hwf.
  replace (negb (truthy v) || negb (String.eqb (typeof v) "object"))
    with true by (by destruct (truthy v), (String.eqb (typeof v) "object")).
  reflexivity.
Qed.

(** Every way the handler can go. *)
Lemma handle_outcome request env w :
  exists resp w',
    handleTurnResolved host request env w = (Normal resp, w') /\
    now w' = now w /\
    (fetches w <= fetches w' <= S (fetches w))%nat /\
    (kv_ops w <= kv_ops w' <= 2 + kv_ops w)%nat /\
    ((resp = synced_response /\ kv w' = kv w /\ waiting w' = waiting w /\
      kv_ops w' = kv_ops w) \/
     (resp = queued_response /\ waiting w' = waiting w ++ [env] /\
      kv_ops w' = (if QUEUE_KV env then 2 + kv_ops w else kv_ops w)%nat /\
      exists turnData,
        json_body request = Normal turnData /\
        (kv w' = kv w \/
         kv w' = <[enqueue_key host w := enqueue_entry turnData w]> (kv w))) \/
     (resp = invalid_response /\ w' = w /\
      exists v, json_body request = Normal v /\ well_formed v = false) \/
     (exists message, resp = error_response message /\ kv w' = kv w /\
        waiting w' = waiting w /\ kv_ops w' = kv_ops w)).
Proof.
  destruct (json_body request) as [turnData|message] eqn:Hb.
  2:{ unfold handleTurnResolved. run. rewrite Hb. cbv beta iota.
      eexists _, _. split; [reflexivity |]. cbn. split_and!; try lia; auto.
      do 3 right. eexists. split_and!; done. }
  destruct (well_formed turnData) eqn:Hwf.
  2:{ rewrite (handle_invalid request env w turnData Hb Hwf).
      eexists _, _. split; [reflexivity |]. split_and!; try lia; auto.
      do 2 right. left. split_and!; eauto. }
  pose proof (writeToNotion_calls host turnData env w) as Hcalls.
  destruct (writeToNotion_total host turnData env w)
    as (r & w1 & Hr & Hkv & Hnow & Hops & Hrand & Hwait & Hle).
  rewrite Hr in Hcalls. cbn [snd] in Hcalls.
  assert (Hup : (fetches w1 <= S (fetches w))%nat).
  { rewrite Hcalls. destruct (configured env), turnData; lia. }
  destruct r as [id | hint | error].
  - rewrite (handle_delivered host _ _ _ _ _ _ Hb Hwf Hr).
    eexists _, _. split; [reflexivity |]. split_and!; try lia; auto.
  - destruct (queueInKV_effect turnData env w1)
      as (w2 & Hq & Hwait2 & Hf2 & Hnow2 & Hops2 & Hkv2).
    rewrite (handle_rate_limited host _ _ _ _ _ _ _ Hb Hwf Hr Hq).
    pose proof (queueInKV_ops turnData env w1) as Hexact.
    rewrite Hq in Hexact. cbn [snd] in Hexact.
    destruct (handed_over_frame host env w2) as (Hkv3 & Hnow3 & Hf3 & Hwait3 & Hops3).
    eexists _, _. split; [reflexivity |].
    assert (Hops' : kv_ops (handed_over host env w2) =
                    (if QUEUE_KV env then 2 + kv_ops w else kv_ops w)%nat).
    { rewrite Hops3, Hexact, Hops. by destruct (QUEUE_KV env). }
    split; [congruence |].
    split; [rewrite Hf3; lia |].
    split; [rewrite Hops'; destruct (QUEUE_KV env); lia |].
    right. left. split_and!; [done | congruence | done |].
    exists turnData. split; [done |]. rewrite Hkv3.
    unfold enqueue_key, enqueue_entry in *. rewrite Hkv, Hnow, Hrand in Hkv2. done.
  - rewrite (handle_failed host _ _ _ _ _ _ Hb Hwf Hr).
    eexists _, _. split; [reflexivity |]. cbn. split_and!; try lia; auto.
    do 3 right. eexists. split_and!; done.
Qed.

(** X3.  The handler never throws and always answers with status 200, 202,
    400 or 500, after at most one outbound call.  A sweep is handed to the
    runtime exactly when the answer is 202.  By the time a 202 is built,
    with a namespace bound, exactly two KV operations have been issued: the
    put of the enqueue and the listing of the sweep, which
    [processQueue(env)] issues at once, before the response; without a
    namespace there is none.  With any other answer no KV operation is
    made, no sweep is started and the queue is unchanged. *)
Theorem handler_answers request env w :
  let out := handleTurnResolved host request env w in
  exists resp,
    fst out = Normal resp /\
    (http_status resp = 200 \/ http_status resp = 202 \/
     http_status resp = 400 \/ http_status resp = 500) /\
    (fetches (snd out) <= S (fetches w))%nat /\
    (kv_ops (snd out) <= 2 + kv_ops w)%nat /\
    (http_status resp = 202 ->
       waiting (snd out) = waiting w ++ [env] /\
       kv_ops (snd out) = (if QUEUE_KV env then 2 + kv_ops w else kv_ops w)%nat) /\
    (http_status resp <> 202 ->
       waiting (snd out) = waiting w /\ kv (snd out) = kv w /\
       kv_ops (snd out) = kv_ops w).
Proof.
  cbv zeta.
  destruct (handle_outcome request env w)
    as (resp & w' & -> & _ & Hf & Hops & Hcases). cbn [fst snd].
  exists resp. split; [done |].
  destruct Hcases as [(-> & ? & ? & ?) | [(-> & ? & ? & _) |
                      [(-> & -> & _) | (m & -> & ? & ? & ?)]]];
    cbn; split_and!; auto; try lia; try done.
Qed.

(** X4.  Every answer tells the caller what happened: a 200 or 202 answer
    carries [success: true] (and [queued: true] only for 202), and a 400 or
    500 answer carries an [error] text that is never empty: the message of
    the error, or a fixed text when the message is empty. *)
Theorem handler_body_matches_status request env w :
  forall resp,
    fst (handleTurnResolved host request env w) = Normal resp ->
    match http_body resp with
    | Plain _ => False
    | Json body =>
        (http_status resp = 200 ->
           prop body "success" = Some (JBool true) /\ prop body "queued" = None /\
           prop body "error" = None) /\
        (http_status resp = 202 ->
           prop body "success" = Some (JBool true) /\
           prop body "queued" = Some (JBool true) /\ prop body "error" = None) /\
        (http_status resp = 400 \/ http_status resp = 500 ->
           prop body "success" = None /\
           exists text, prop body "error" = Some (JStr text) /\ text <> EmptyString)
    end.
Proof.
  intros resp Hresp.
  destruct (handle_outcome request env w)
    as (resp' & w' & Hout & _ & _ & _ & Hcases).
  rewrite Hout in Hresp. injection Hresp as <-.
  destruct Hcases as [(-> & _) | [(-> & _) | [(-> & _) | (m & -> & _)]]]; cbn;
    split_and!; try done; try (intros [?|?]; done).
  - intros _. split; [done |]. by eexists.
  - intros _. split; [done |]. eexists. split; [done |]. by apply or_string_nonempty.
Qed.

(** X5.  The handler answers 400 "Invalid request body" exactly when the
    body parses, and parses to [null], a boolean, a number or a string;
    objects and arrays are let through, and a body that does not parse is
    answered 500. *)
Theorem invalid_body_iff request env w :
  fst (handleTurnResolved host request env w) = Normal invalid_response <->
  exists v, json_body request = Normal v /\
            match v with JObj _ | JArr _ => False | _ => True end.
Proof.
  assert (Hwf : forall v, well_formed v = false <->
                          match v with JObj _ | JArr _ => False | _ => True end).
  { intros v. destruct v as [|b|n|s|items|fields]; unfold well_formed; cbn [typeof];
      rewrite ?andb_false_r; split; done. }
  split.
  - destruct (handle_outcome request env w)
      as (resp & w' & -> & _ & _ & _ & Hcases). cbn [fst].
    intros [= ->].
    destruct Hcases as [(? & _) | [(? & _) | [(_ & _ & v & ? & ?) | (m & ? & _)]]];
      try discriminate.
    exists v. split; [done |]. by apply Hwf.
  - intros (v & Hb & Hv). apply Hwf in Hv.
    by rewrite (handle_invalid request env w v Hb Hv).
Qed.

(** X6.  With a secret missing, an event that passes validation is answered
    500 with the text "Notion API credentials not configured"; no outbound
    call and no KV operation is made, and the event is not queued for a
    later retry. *)
Theorem unconfigured_worker_answers_500 request env w turnData :
  json_body request = Normal turnData ->
  well_formed turnData = true ->
  configured env = false ->
  let out := handleTurnResolved host request env w in
  fst out = Normal (error_response "Notion API credentials not configured") /\
  fetches (snd out) = fetches w /\ kv_ops (snd out) = kv_ops w /\
  kv (snd out) = kv w /\ waiting (snd out) = waiting w.
Proof.
  intros Hb Hwf Hc.
  pose proof (writeToNotion_unconfigured host turnData env w Hc) as Hr.
  cbv zeta. rewrite (handle_failed host _ _ _ _ _ _ Hb Hwf Hr). by cbn.
Qed.

(** X7.  A failure of the initial attempt reaches the caller and is not
    queued.  When Notion answers with a status other than 429 and 2xx (and
    the body can be read) the caller gets 500 with the text "Notion API
    error: <status>"; when the call itself fails the caller gets 500 with
    the message of the error, or "Failed to write to Notion" when that
    message is empty.  In both cases the queue is unchanged and no sweep is
    started. *)
Theorem notion_failure_is_surfaced request env w turnData :
  json_body request = Normal turnData ->
  well_formed turnData = true ->
  configured env = true ->
  let out := handleTurnResolved host request env w in
  match reply_in host turnData env w with
  | Throw message =>
      fst out = Normal (json_response 500
        (JObj [("error", JStr (or_string message "Failed to write to Notion"))])) /\
      kv (snd out) = kv w /\ waiting (snd out) = waiting w
  | Normal r =>
      status r <> 429 -> ok r = false -> forall body, text r = Normal body ->
      fst out = Normal (json_response 500
        (JObj [("error", JStr ("Notion API error: " +:+ dec (status r)))])) /\
      kv (snd out) = kv w /\ waiting (snd out) = waiting w
  end.
Proof.
  intros Hb Hwf Hc. cbv zeta.
  pose proof (writeToNotion_configured host turnData env w Hc
                (well_formed_not_null _ Hwf)) as Hr.
  destruct (reply_in host turnData env w) as [r|message].
  - intros H429 Hnok body Hbody. apply Z.eqb_neq in H429.
    unfold classify in Hr. rewrite H429, Hnok, Hbody in Hr.
    rewrite (handle_failed host _ _ _ _ _ _ Hb Hwf Hr). by cbn.
  - cbn [classify] in Hr. rewrite (handle_failed host _ _ _ _ _ _ Hb Hwf Hr).
    cbn. split_and!; try done. unfold error_response. do 4 f_equal.
    unfold or_string. destruct (String.eqb_spec message EmptyString); [done |].
    by destruct (String.eqb_spec message EmptyString).
Qed.

(** X8.  The worker answers 404 "Not Found" exactly when the request is not
    a [POST] to [/turn-resolved]; such a request has no effect at all. *)
Theorem route_not_found_iff request env w :
  let out := worker_fetch host request env w in
  exists resp,
    fst out = Normal resp /\
    (http_status resp = 404 <->
     ~ (pathname request = "/turn-resolved" /\ method request = "POST")) /\
    (http_status resp = 404 -> http_body resp = Plain "Not Found" /\ snd out = w).
Proof.
  cbv zeta. unfold worker_fetch.
  destruct (String.eqb_spec (pathname request) "/turn-resolved") as [Hp|Hp];
    destruct (String.eqb_spec (method request) "POST") as [Hm|Hm]; cbn [andb].
  2-4: eexists; (split; [reflexivity |]); cbn; split; [| done]; split; [tauto | done].
  destruct (handle_outcome request env w) as (resp & w' & -> & _ & _ & _ & Hcases).
  exists resp. split; [done |]. cbn [fst snd].
  assert (Hne : http_status resp <> 404).
  { destruct Hcases as [(-> & _) | [(-> & _) | [(-> & _) | (m & -> & _)]]]; done. }
  split; [| done]. split; [done | tauto].
Qed.

End HandlerMore.

(** * Further properties of the queue *)

Section QueueMore.

Variable host : Host.

Lemma map_is_fmap {A B} (f : A -> B) (l : list A) : map f l = f <$> l.
Proof. induction l as [|x l IH]; cbn; [done | by rewrite IH]. Qed.

Lemma NoDup_filter_fst {A B} (f : A * B -> bool) (l : list (A * B)) :
  NoDup (map fst l) -> NoDup (map fst (List.filter f l)).
Proof.
  induction l as [|p l IH]; cbn; [done |].
  intros Hnd. apply NoDup_cons in Hnd as [Hnotin Hnd].
  destruct (f p); cbn; [| by apply IH].
  apply NoDup_cons. split; [| by apply IH].
  intros Hin. apply Hnotin.
  apply list_elem_of_In, in_map_iff in Hin as (q & Hq & Hin).
  apply filter_In in Hin as [Hin _].
  apply list_elem_of_In, in_map_iff. eauto.
Qed.

(** The keys of the queue are the live keys with the prefix, each once. *)
Lemma elem_of_queue_keys pfx w name :
  name ∈ queue_keys pfx w <->
  String.prefix pfx name = true /\
  exists e, kv w !! name = Some e /\ live (now w) e = true.
Proof.
  unfold queue_keys. rewrite merge_sort_Permutation, list_elem_of_In, in_map_iff. split.
  - intros ([k e] & <- & Hin). apply filter_In in Hin as [Hin Hf].
    apply andb_true_iff in Hf as [Hp Hl]. cbn in *.
    apply list_elem_of_In, elem_of_map_to_list in Hin. eauto.
  - intros (Hp & e & He & Hl). exists (name, e). split; [done |].
    apply filter_In. split.
    + by apply list_elem_of_In, elem_of_map_to_list.
    + cbn. by rewrite Hp, Hl.
Qed.

Lemma NoDup_queue_keys pfx w : NoDup (queue_keys pfx w).
Proof.
  unfold queue_keys. rewrite merge_sort_Permutation. apply NoDup_filter_fst.
  rewrite map_is_fmap. apply NoDup_fst_map_to_list.
Qed.

(** A page holds keys of the queue, each once, and at most [page_limit] of
    them; it holds them all when the queue is no longer than a page. *)
Lemma listed_keys_queue pfx w name :
  name ∈ listed_keys pfx w -> name ∈ queue_keys pfx w.
Proof. unfold listed_keys. intros Hin. eapply elem_of_sublist; [done | apply sublist_take]. Qed.

Lemma elem_of_listed_keys pfx w name :
  name ∈ listed_keys pfx w ->
  String.prefix pfx name = true /\
  exists e, kv w !! name = Some e /\ live (now w) e = true.
Proof. intros Hin. by apply elem_of_queue_keys, listed_keys_queue. Qed.

Lemma NoDup_listed_keys pfx w : NoDup (listed_keys pfx w).
Proof.
  unfold listed_keys. apply (sublist_NoDup _ (queue_keys pfx w));
    [apply NoDup_queue_keys | apply sublist_take].
Qed.

Lemma length_listed_keys pfx w : (length (listed_keys pfx w) <= page_limit)%nat.
Proof. unfold listed_keys. rewrite length_take. lia. Qed.

Lemma listed_keys_whole pfx w :
  (length (queue_keys pfx w) <= page_limit)%nat -> listed_keys pfx w = queue_keys pfx w.
Proof. unfold listed_keys. apply take_ge. Qed.

Lemma kv_list_ok pfx w :
  kv_fault host (kv_ops w) = None ->
  kv_list host pfx w = (Normal (listed_keys pfx w), tick w).
Proof.
  intros Hf. unfold kv_list. run. by rewrite (kv_round_trip_ok host _ Hf).
Qed.

Lemma kv_list_fault pfx w e :
  kv_fault host (kv_ops w) = Some e ->
  kv_list host pfx w = (Throw e, tick w).
Proof.
  intros Hf. unfold kv_list. run. by rewrite (kv_round_trip_fault host _ _ Hf).
Qed.

Lemma listed_keys_tick pfx w : listed_keys pfx (tick w) = listed_keys pfx w.
Proof. reflexivity. Qed.

(** The three ways of [processQueue]. *)
Lemma processQueue_unbound env w :
  QUEUE_KV env = false -> processQueue host env w = (Normal tt, w).
Proof. unfold processQueue. by intros ->. Qed.

Lemma processQueue_list_fault env w e :
  QUEUE_KV env = true ->
  kv_fault host (kv_ops w) = Some e ->
  processQueue host env w =
    (Normal tt,
     set_console (console w ++ [(ERROR, [Text "Error processing queue:"; Err e])])
       (tick w)).
Proof.
  intros Hq Hf. unfold processQueue. rewrite Hq. cbn [negb]. run.
  by rewrite (kv_list_fault _ _ _ Hf).
Qed.

Lemma processQueue_sweep env w :
  QUEUE_KV env = true ->
  kv_fault host (kv_ops w) = None ->
  processQueue host env w = sweep_keys host env (listed_keys "queue:" w) (tick w).
Proof.
  intros Hq Hf. unfold processQueue. rewrite Hq. cbn [negb]. run.
  rewrite (kv_list_ok _ _ Hf).
  by destruct (sweep_keys_total host env (listed_keys "queue:" w) (tick w))
    as (w' & -> & _).
Qed.

(** A sweep that runs in one go is the sweep that is suspended on its
    listing and resumed at once. *)
Lemma processQueue_in_two_steps env w :
  QUEUE_KV env = true ->
  processQueue host env w = resume_processQueue host env (listing_in host w) (tick w).
Proof.
  intros Hq. unfold listing_in, resume_processQueue.
  destruct (kv_fault host (kv_ops w)) as [e|] eqn:Hf.
  - by rewrite (processQueue_list_fault env w e Hq Hf).
  - rewrite (processQueue_sweep env w Hq Hf). run.
    by destruct (sweep_keys_total host env (listed_keys "queue:" w) (tick w))
      as (w' & -> & _).
Qed.

(** What one iteration costs: at most one outbound call and at most two KV
    operations. *)
Lemma guarded_item_cost env name w :
  let w' := snd (guarded_item host env name w) in
  (fetches w <= fetches w' <= S (fetches w))%nat /\
  (kv_ops w < kv_ops w' <= 2 + kv_ops w)%nat.
Proof.
  cbv zeta.
  destruct (kv_fault host (kv_ops w)) as [e|] eqn:Hf.
  { rewrite (guarded_item_caught host env name w e _
               (process_item_read_fault host env name w e Hf)). cbn. lia. }
  destruct (kv_lookup w name) as [item|] eqn:Hl.
  2:{ rewrite (guarded_item_normal host env name w _
                 (process_item_absent host env name w Hf Hl)). cbn. lia. }
  pose proof (process_item_present host env name w item Hf Hl) as Hp.
  pose proof (writeToNotion_calls host (data item) env (tick w)) as Hcalls.
  destruct (writeToNotion_total host (data item) env (tick w))
    as (r & w1 & Hr & _ & _ & Hops & _ & _ & Hle).
  rewrite Hr in Hcalls. cbn [snd] in Hcalls.
  assert (Hup : (fetches w1 <= S (fetches w))%nat).
  { rewrite Hcalls. cbn. destruct (configured env), (data item); lia. }
  cbn in Hle, Hops.
  destruct (kv_fault host (kv_ops w1)) as [e|] eqn:Hf1.
  - rewrite (retry_item_fault host _ _ _ _ _ _ _ Hr Hf1) in Hp.
    rewrite (guarded_item_caught host env name w e _ Hp). cbn. lia.
  - destruct (retry_item_ok host env name _ _ _ _ Hr Hf1)
      as (w2 & Hw2 & _ & _ & Hf2 & _ & Hops2).
    rewrite Hw2 in Hp. rewrite (guarded_item_normal host env name w w2 Hp). cbn. lia.
Qed.

Lemma sweep_keys_cost env names w :
  let w' := snd (sweep_keys host env names w) in
  (fetches w <= fetches w' <= length names + fetches w)%nat /\
  (kv_ops w <= kv_ops w' <= 2 * length names + kv_ops w)%nat.
Proof.
  cbv zeta. revert w. induction names as [|name rest IH]; intros w; [cbn; lia |].
  destruct (guarded_item_frame host env name w) as (w1 & Hg & _).
  rewrite (sweep_keys_cons host env name rest w w1 Hg).
  pose proof (guarded_item_cost env name w) as Hc. rewrite Hg in Hc. cbn [snd] in Hc.
  specialize (IH w1). cbn [length]. lia.
Qed.

(** An iteration leaves alone every key under which nothing is stored. *)
Lemma guarded_item_no_new_key env name other w :
  kv w !! other = None ->
  kv (snd (guarded_item host env name w)) !! other = None.
Proof.
  intros Hnone.
  destruct (guarded_item_frame host env name w) as (w' & -> & _ & _ & Hcases).
  cbn [snd]. destruct Hcases as [[-> _]|(item & r & w1 & Hl & _ & ->)]; [done |].
  rewrite store_after_other; [done |]. intros ->.
  unfold kv_lookup in Hl. by rewrite Hnone in Hl.
Qed.

Lemma sweep_keys_waiting env names w :
  waiting (snd (sweep_keys host env names w)) = waiting w.
Proof.
  revert w. induction names as [|name rest IH]; intros w; [done |].
  destruct (guarded_item_frame host env name w) as (w1 & Hg & _ & Hwait & _).
  rewrite (sweep_keys_cons host env name rest w w1 Hg), IH. done.
Qed.

(** X9.  A sweep never throws, does not move the clock and never starts
    another sweep.  It makes at most one outbound call for each key it
    listed, and at most one KV operation for the listing plus two for each
    key. *)
Theorem sweep_is_contained env w :
  let out := processQueue host env w in
  let listed := length (listed_keys "queue:" w) in
  fst out = Normal tt /\
  now (snd out) = now w /\ waiting (snd out) = waiting w /\
  (fetches w <= fetches (snd out) <= listed + fetches w)%nat /\
  (kv_ops w <= kv_ops (snd out) <= 1 + 2 * listed + kv_ops w)%nat.
Proof.
  cbv zeta. destruct (QUEUE_KV env) eqn:Hq.
  2:{ rewrite (processQueue_unbound env w Hq). cbn. split_and!; auto; lia. }
  destruct (kv_fault host (kv_ops w)) as [e|] eqn:Hf.
  { rewrite (processQueue_list_fault env w e Hq Hf). cbn. split_and!; auto; lia. }
  rewrite (processQueue_sweep env w Hq Hf).
  pose proof (sweep_keys_cost env (listed_keys "queue:" w) (tick w)) as Hcost.
  pose proof (sweep_keys_waiting env (listed_keys "queue:" w) (tick w)) as Hwait.
  destruct (sweep_keys_total host env (listed_keys "queue:" w) (tick w))
    as (w' & Hs & Hnow).
  rewrite Hs in *. cbn in *. split_and!; auto; lia.
Qed.

(** X10.  A sweep touches only the keys it listed.  Every other key keeps
    exactly its pair: in particular a key that does not start with
    "queue:" is never modified or deleted, and a key under which nothing is
    stored is never created, so a sweep never adds an entry to the
    namespace. *)
Theorem sweep_touches_only_listed_keys env w :
  let after := kv (snd (processQueue host env w)) in
  (forall name, name ∉ listed_keys "queue:" w -> after !! name = kv w !! name) /\
  (forall name, String.prefix "queue:" name = false -> after !! name = kv w !! name) /\
  (forall name, kv w !! name = None -> after !! name = None).
Proof.
  cbv zeta.
  assert (Hother : forall name, name ∉ listed_keys "queue:" w ->
            kv (snd (processQueue host env w)) !! name = kv w !! name).
  { intros name Hnotin. destruct (QUEUE_KV env) eqn:Hq.
    2:{ by rewrite (processQueue_unbound env w Hq). }
    destruct (kv_fault host (kv_ops w)) as [e|] eqn:Hf.
    { by rewrite (processQueue_list_fault env w e Hq Hf). }
    rewrite (processQueue_sweep env w Hq Hf).
    by rewrite (sweep_keys_other host env _ name (tick w) Hnotin). }
  split_and!; [done | |].
  - intros name Hp. apply Hother. intros Hin.
    apply elem_of_listed_keys in Hin as [Hp' _]. congruence.
  - intros name Hnone. rewrite Hother; [done |].
    intros Hin. apply elem_of_listed_keys in Hin as (_ & e & He & _). congruence.
Qed.

(** X11.  A sweep that has no namespace, or that lists no key, is a no-op
    for the queue and for Notion: it ends normally, the namespace is
    unchanged and no outbound call is made. *)
Theorem sweep_without_items_is_noop env w :
  QUEUE_KV env = false \/ listed_keys "queue:" w = [] ->
  let out := processQueue host env w in
  fst out = Normal tt /\ kv (snd out) = kv w /\ fetches (snd out) = fetches w.
Proof.
  intros Hnothing. cbv zeta. destruct (QUEUE_KV env) eqn:Hq.
  2:{ by rewrite (processQueue_unbound env w Hq). }
  destruct Hnothing as [? | Hnil]; [done |].
  destruct (kv_fault host (kv_ops w)) as [e|] eqn:Hf.
  { by rewrite (processQueue_list_fault env w e Hq Hf). }
  by rewrite (processQueue_sweep env w Hq Hf), Hnil.
Qed.

(** X12.  In an iteration of the sweep for a queued item (the read and the
    delete both accepted by the namespace), when the re-attempt is
    delivered the key is deleted, whatever its retry count, and every other
    key keeps its pair. *)
Theorem delivered_item_is_deleted env name item w id :
  kv_lookup w name = Some item ->
  kv_fault host (kv_ops w) = None ->
  kv_fault host (S (kv_ops w)) = None ->
  fst (writeToNotion host (data item) env (tick w)) = Normal (Delivered id) ->
  kv (snd (guarded_item host env name w)) = delete name (kv w).
Proof.
  intros Hl Hf Hf' Hr.
  destruct (writeToNotion host (data item) env (tick w)) as [c w1] eqn:Hw.
  cbn [fst] in Hr. subst c.
  by rewrite (guarded_item_update host env name item w _ w1 Hl Hf Hf' Hw).
Qed.

End QueueMore.

(** * Queued items over several sweeps *)

Section Trajectories.

Variable host : Host.








(** After a sweep over keys that are all delivered, none of them is left. *)
Lemma sweep_keys_all_delivered env names :
  (forall n, kv_fault host n = None) ->
  NoDup names ->
  forall w,
    (forall name, name ∈ names ->
       exists item, kv_lookup w name = Some item /\
         forall v, exists id,
           fst (writeToNotion host (data item) env v) = Normal (Delivered id)) ->
    forall name, name ∈ names ->
      kv (snd (sweep_keys host env names w)) !! name = None.
Proof.
  intros Hf Hnd. induction Hnd as [|first rest Hnotin Hnd IH]; intros w Hall name Hin.
  { by apply elem_of_nil in Hin. }
  destruct (Hall first) as (item & Hl & Hdel); [by left |].
  destruct (writeToNotion host (data item) env (tick w)) as [c w1] eqn:Hr.
  destruct (Hdel (tick w)) as [id Hid]. rewrite Hr in Hid. cbn [fst] in Hid. subst c.
  pose proof (guarded_item_update host env first item w _ w1 Hl (Hf _) (Hf _) Hr) as Hkv.
  destruct (guarded_item_frame host env first w) as (w' & Hg & Hnow & _).
  rewrite Hg in Hkv. cbn [snd] in Hkv. cbn [queue_update store_after] in Hkv.
  rewrite (sweep_keys_cons host env first rest w w' Hg).
  apply elem_of_cons in Hin as [-> | Hin].
  - rewrite (sweep_keys_other host env rest first w' Hnotin), Hkv.
    apply lookup_delete_eq.
  - apply IH; [| done]. intros other Hother.
    destruct (Hall other) as (it & Hlo & Hd); [by right |].
    exists it. split; [| done].
    assert (other <> first) by (intros ->; done).
    unfold kv_lookup in *. rewrite Hkv, Hnow, lookup_delete_ne by done. done.
Qed.

(** X15.  When Notion accepts every queued event and the namespace accepts
    every operation, one sweep drains one page of the queue.  The sweep
    reads a single page of the listing, the first 1000 keys, and never
    follows the cursor: afterwards the keys of the queue are exactly those
    that were beyond that page, so a queue of at most 1000 live items is
    empty after the sweep and a longer one keeps the rest. *)
Theorem sweep_drains_one_page env w :
  QUEUE_KV env = true ->
  (forall n, kv_fault host n = None) ->
  (forall name item, kv_lookup w name = Some item ->
     forall v, exists id,
       fst (writeToNotion host (data item) env v) = Normal (Delivered id)) ->
  let after := snd (processQueue host env w) in
  (forall name,
     name ∈ queue_keys "queue:" after <->
     name ∈ drop page_limit (queue_keys "queue:" w)) /\
  ((length (queue_keys "queue:" w) <= page_limit)%nat ->
     queue_keys "queue:" after = []).
Proof.
  intros Hq Hf Hdel. cbv zeta.
  rewrite (processQueue_sweep host env w Hq (Hf _)).
  set (names := listed_keys "queue:" w).
  destruct (sweep_keys_total host env names (tick w)) as (final & Hs & Hnow).
  pose proof (sweep_keys_all_delivered env names Hf (NoDup_listed_keys _ _) (tick w)) as Hgone.
  assert (Hall : forall name, name ∈ names ->
            exists item, kv_lookup (tick w) name = Some item /\
              forall v, exists id,
                fst (writeToNotion host (data item) env v) = Normal (Delivered id)).
  { intros name Hin. apply elem_of_listed_keys in Hin as (_ & e & He & Hlive).
    exists (value e). split; [unfold kv_lookup; cbn; by rewrite He, Hlive |].
    apply (Hdel name). unfold kv_lookup. by rewrite He, Hlive. }
  specialize (Hgone Hall).
  assert (Hkept : forall name, name ∉ names -> kv final !! name = kv w !! name).
  { intros name Hnot.
    pose proof (sweep_keys_other host env names name (tick w) Hnot) as Hsame.
    by rewrite Hs in Hsame. }
  rewrite Hs in *. cbn [snd] in *. change (now (tick w)) with (now w) in Hnow.
  pose proof (NoDup_queue_keys "queue:" w) as Hnd.
  rewrite <- (take_drop page_limit (queue_keys "queue:" w)) in Hnd.
  apply NoDup_app in Hnd as (_ & Hdisjoint & _).
  fold (listed_keys "queue:" w) in Hdisjoint. fold names in Hdisjoint.
  assert (Hrest : forall name,
            name ∈ queue_keys "queue:" final <->
            name ∈ drop page_limit (queue_keys "queue:" w)).
  { intros name. split.
    - intros Hin. apply elem_of_queue_keys in Hin as (Hp & e & He & Hlive).
      destruct (decide (name ∈ names)) as [Hlisted | Hnot].
      { rewrite (Hgone name Hlisted) in He. discriminate. }
      assert (Hin : name ∈ queue_keys "queue:" w).
      { apply elem_of_queue_keys. split; [done |]. exists e.
        rewrite <- (Hkept name Hnot), <- Hnow. done. }
      rewrite <- (take_drop page_limit (queue_keys "queue:" w)) in Hin.
      apply elem_of_app in Hin as [Hin | Hin]; [| done].
      by destruct Hnot.
    - intros Hin.
      assert (Hnot : name ∉ names) by (intros Hlisted; by apply (Hdisjoint name)).
      assert (Hq' : name ∈ queue_keys "queue:" w)
        by (eapply elem_of_sublist; [done | apply sublist_drop]).
      apply elem_of_queue_keys in Hq' as (Hp & e & He & Hlive).
      apply elem_of_queue_keys. split; [done |]. exists e.
      rewrite (Hkept name Hnot), Hnow. done. }
  split; [done |]. intros Hshort.
  apply elem_of_nil_inv. intros name Hin. apply Hrest in Hin.
  rewrite drop_ge in Hin by done. by apply elem_of_nil in Hin.
Qed.

End Trajectories.

(** * Further properties of the enqueue *)

Section EnqueueMore.

Variable host : Host.

Lemma queue_key_prefix t random36 : String.prefix "queue:" (queue_key t random36) = true.
Proof.
  apply String.prefix_correct. unfold queue_key. cbn.
  by destruct (dec t +:+ ":" +:+ substr 2 9 random36).
Qed.

(** X16.  An enqueue never throws, makes no outbound call and at most one
    KV operation, starts no sweep by itself, and leaves every key other
    than the one it builds exactly as it was. *)
Theorem enqueue_is_contained turnData env w :
  let out := queueInKV host turnData env w in
  fst out = Normal tt /\
  fetches (snd out) = fetches w /\ waiting (snd out) = waiting w /\
  (kv_ops (snd out) <= S (kv_ops w))%nat /\
  (forall other, other <> queue_key (now w) (random_base36 host (randoms w)) ->
     kv (snd out) !! other = kv w !! other).
Proof.
  cbv zeta.
  destruct (queueInKV_effect host turnData env w)
    as (w' & -> & Hwait & Hf & _ & Hops & Hkv).
  cbn [fst snd]. split_and!; auto; [lia |].
  intros other Hne. destruct Hkv as [-> | ->]; [done |].
  by rewrite lookup_insert_ne.
Qed.

(** X17.  An event that was enqueued (namespace bound, put accepted) can be
    read back under its key with its data, the instant of the enqueue and
    a retry count of 0, and it stays readable for exactly 24 hours: [d]
    milliseconds later it is returned when [d] is below 86 400 000 and is
    gone otherwise. *)
Theorem enqueued_item_readable_for_24h turnData env w d :
  QUEUE_KV env = true ->
  kv_fault host (kv_ops w) = None ->
  kv_lookup (elapse d (snd (queueInKV host turnData env w)))
    (queue_key (now w) (random_base36 host (randoms w))) =
    if d <? 86400000
    then Some {| data := turnData; timestamp := now w; retries := Some 0 |}
    else None.
Proof.
  intros Hq Hf.
  destruct (queueInKV_ok host turnData env w Hq Hf) as (w' & -> & Hkv & _ & _ & Hnow).
  unfold kv_lookup, elapse. cbn. rewrite Hkv, Hnow.
  unfold enqueue_key. rewrite lookup_insert_eq. unfold live. cbn.
  destruct (Z.ltb_spec (now w + d) (now w + 86400 * 1000)),
    (Z.ltb_spec d 86400000); (done || lia).
Qed.

(** X18.  The key of an enqueued event starts with "queue:", the prefix that
    the sweep lists, so after a successful enqueue it is one of the keys of
    the queue.  It is on the page that the next sweep reads whenever the
    queue then holds at most 1000 live keys; the sweep reads only the first
    page, so in a longer queue a key that sorts after the first 1000 has to
    wait. *)
Theorem enqueued_item_is_listed turnData env w :
  QUEUE_KV env = true ->
  kv_fault host (kv_ops w) = None ->
  let after := snd (queueInKV host turnData env w) in
  let key := queue_key (now w) (random_base36 host (randoms w)) in
  key ∈ queue_keys "queue:" after /\
  ((length (queue_keys "queue:" after) <= page_limit)%nat ->
     key ∈ listed_keys "queue:" after).
Proof.
  intros Hq Hf. cbv zeta.
  destruct (queueInKV_ok host turnData env w Hq Hf) as (w' & -> & Hkv & _ & _ & Hnow).
  cbn [snd].
  assert (Hin : queue_key (now w) (random_base36 host (randoms w))
                  ∈ queue_keys "queue:" w').
  { apply elem_of_queue_keys. split; [apply queue_key_prefix |].
    exists (enqueue_entry turnData w). rewrite Hkv, Hnow. unfold enqueue_key.
    rewrite lookup_insert_eq. split; [done |]. unfold live, enqueue_entry. cbn. lia. }
  split; [done |]. intros Hshort. by rewrite listed_keys_whole.
Qed.

End EnqueueMore.

(** * A request and the sweep it starts *)

Section RequestAndSweep.

Variable host : Host.

Lemma listed_keys_singleton pfx w name e :
  kv w = {[name := e]} ->
  String.prefix pfx name = true ->
  live (now w) e = true ->
  listed_keys pfx w = [name].
Proof.
  intros Hkv Hp Hl. unfold listed_keys, queue_keys.
  rewrite Hkv, map_to_list_singleton. cbn [List.filter fst snd].
  by rewrite Hp, Hl.
Qed.

(** The outbound calls of an iteration are those of its re-attempt. *)
Lemma guarded_item_calls env name item w r w1 :
  kv_lookup w name = Some item ->
  kv_fault host (kv_ops w) = None ->
  kv_fault host (S (kv_ops w)) = None ->
  writeToNotion host (data item) env (tick w) = (Normal r, w1) ->
  fetches (snd (guarded_item host env name w)) = fetches w1.
Proof.
  intros Hl Hf Hf' Hr.
  destruct (writeToNotion_total host (data item) env (tick w))
    as (r' & w1' & Hr' & _ & _ & Hops & _).
  rewrite Hr in Hr'. injection Hr' as <- <-.
  assert (Hf1 : kv_fault host (kv_ops w1) = None) by (by rewrite Hops).
  destruct (retry_item_ok host env name _ _ _ _ Hr Hf1) as (w2 & Hw2 & _ & _ & Hcalls & _).
  rewrite (guarded_item_normal host env name w w2); [done |].
  by rewrite (process_item_present host _ _ _ _ Hf Hl).
Qed.

Lemma writeToNotion_suspended turnData env w :
  suspended (snd (writeToNotion host turnData env w)) = suspended w.
Proof.
  destruct (configured env) eqn:Hc.
  - destruct turnData;
      try (rewrite writeToNotion_configured by (done || discriminate); reflexivity).
    destruct (writeToNotion_null host env w Hc) as [message ->]. reflexivity.
  - by rewrite (writeToNotion_unconfigured host _ _ _ Hc).
Qed.

Lemma queueInKV_suspended turnData env w :
  suspended (snd (queueInKV host turnData env w)) = suspended w.
Proof.
  destruct (QUEUE_KV env) eqn:Hq.
  - unfold queueInKV. rewrite Hq. cbn [negb]. unfold kv_put, Math_random_base36. run.
    unfold kv_round_trip. cbn [kv_ops set_randoms].
    by destruct (kv_fault host (kv_ops w)).
  - by rewrite queueInKV_unbound.
Qed.

(** X19.  The first retry of a queued event is made by the sweep that its
    own request starts.  With an empty queue, no other sweep suspended, and
    a Notion that keeps rate limiting (namespace bound, every KV operation
    accepted), the caller gets the 202 "queued" answer, and once the sweep
    handed to the runtime has run, two outbound calls have been made and
    the queue holds the event with a retry count of 1. *)
Theorem queued_event_is_retried_at_once request env w turnData :
  json_body request = Normal turnData ->
  well_formed turnData = true ->
  QUEUE_KV env = true ->
  (forall n, kv_fault host n = None) ->
  (forall v, exists hint,
     fst (writeToNotion host turnData env v) = Normal (RateLimited hint)) ->
  kv w = ∅ ->
  suspended w = [] ->
  let out := handleTurnResolved host request env w in
  let final := snd (settle host (snd out)) in
  fst out = Normal queued_response /\
  waiting final = [] /\
  fetches final = S (S (fetches w)) /\
  kv final =
    {[queue_key (now w) (random_base36 host (randoms w)) :=
        {| value := {| data := turnData; timestamp := now w; retries := Some 1 |};
           expiration := now w + 86400 * 1000 |}]}.
Proof.
  intros Hb Hwf Hq Hf Hrl Hempty Hnone. cbv zeta.
  assert (Hconf : configured env = true).
  { destruct (configured env) eqn:Hc; [done |].
    destruct (Hrl w) as [hint Hh].
    by rewrite (writeToNotion_unconfigured host _ _ _ Hc) in Hh. }
  assert (Hcall : forall v, fetches (snd (writeToNotion host turnData env v)) = S (fetches v)).
  { intros v. rewrite writeToNotion_calls, Hconf.
    pose proof (well_formed_not_null _ Hwf). by destruct turnData. }
  (* the request *)
  pose proof (writeToNotion_suspended turnData env w) as Hs1.
  destruct (writeToNotion host turnData env w) as [c w1] eqn:Hr.
  destruct (writeToNotion_total host turnData env w)
    as (r & w1' & Hr' & Hkv1 & Hnow1 & Hops1 & Hrand1 & Hwait1 & _).
  rewrite Hr in Hr'. injection Hr' as -> ->.
  destruct (Hrl w) as [hint Hh]. rewrite Hr in Hh. injection Hh as ->.
  pose proof (Hcall w) as Hf1. rewrite Hr in Hf1. cbn [snd] in Hf1, Hs1.
  pose proof (queueInKV_suspended turnData env w1') as Hs2.
  destruct (queueInKV_ok host turnData env w1' Hq (Hf _))
    as (w2 & Hq2 & Hkv2 & Hwait2 & Hf2 & Hnow2).
  rewrite Hq2 in Hs2. cbn [snd] in Hs2.
  rewrite (handle_rate_limited host _ _ _ _ _ _ _ Hb Hwf Hr Hq2). cbn [fst snd].
  split; [done |].
  unfold enqueue_key, enqueue_entry in Hkv2.
  rewrite Hkv1, Hnow1, Hrand1, Hempty, insert_empty in Hkv2.
  set (key := queue_key (now w) (random_base36 host (randoms w))) in *.
  set (item := {| data := turnData; timestamp := now w; retries := Some 0 |}) in *.
  (* the listing, issued before the response *)
  assert (Hlist : listed_keys "queue:" w2 = [key]).
  { apply listed_keys_singleton with (e := {| value := item; expiration := now w + 86400 * 1000 |}).
    - exact Hkv2.
    - apply queue_key_prefix.
    - unfold live. cbn. rewrite Hnow2, Hnow1. lia. }
  assert (Htasks : suspended (handed_over host env w2) = [(env, Normal [key])]).
  { unfold handed_over, listing_in. rewrite Hq, (Hf _), Hlist. cbn.
    by rewrite Hs2, Hs1, Hnone. }
  (* the sweep *)
  unfold settle. run. rewrite Htasks. cbn [run_sweeps]. run.
  unfold resume_processQueue. run.
  set (w3 := set_suspended [] (set_waiting [] (handed_over host env w2))).
  assert (Hkv3 : kv w3 = kv w2) by apply handed_over_frame.
  assert (Hnow3 : now w3 = now w2) by apply handed_over_frame.
  assert (Hf3 : fetches w3 = fetches w2) by apply handed_over_frame.
  assert (Hwait3 : waiting w3 = []) by reflexivity.
  clearbody w3.
  assert (Hl : kv_lookup w3 key = Some item).
  { unfold kv_lookup. rewrite Hkv3, Hnow3, Hkv2, lookup_singleton_eq. unfold live. cbn.
    rewrite Hnow2, Hnow1. by destruct (Z.ltb_spec (now w) (now w + 86400 * 1000)); [| lia]. }
  destruct (writeToNotion host turnData env (tick w3)) as [c w4] eqn:Hr4.
  destruct (writeToNotion_total host turnData env (tick w3))
    as (r4 & w4' & Hr4' & _).
  rewrite Hr4 in Hr4'. injection Hr4' as -> ->.
  destruct (Hrl (tick w3)) as [hint4 Hh4]. rewrite Hr4 in Hh4. injection Hh4 as ->.
  pose proof (Hcall (tick w3)) as Hf4. rewrite Hr4 in Hf4. cbn in Hf4.
  pose proof (guarded_item_update host env key item w3 _ w4' Hl (Hf _) (Hf _) Hr4)
    as Hkv5.
  pose proof (guarded_item_calls env key item w3 _ w4' Hl (Hf _) (Hf _) Hr4)
    as Hcalls5.
  destruct (guarded_item_frame host env key w3) as (w5 & Hg & _ & Hwait5 & _).
  rewrite Hwait3 in Hwait5.
  rewrite Hg in Hkv5, Hcalls5. cbn [snd] in Hkv5, Hcalls5.
  cbn [sweep_keys]. run. rewrite Hg. cbn [snd].
  split_and!.
  - exact Hwait5.
  - rewrite Hcalls5, Hf4, Hf3, Hf2, Hf1. done.
  - rewrite Hkv5. cbn [queue_update store_after]. unfold item at 1. cbn.
    rewrite Hkv3, Hnow3, Hkv2, Hnow2, Hnow1. apply insert_singleton_eq.
Qed.

End RequestAndSweep.

(** * The further properties on concrete runs *)

Lemma too_many_always_rate_limits turnData v :
  turnData <> JNull ->
  fst (writeToNotion (Scenario.always Scenario.too_many) turnData Scenario.bound v)
    = Normal (RateLimited (Some "3")).
Proof.
  intros Hn. by rewrite (writeToNotion_configured _ turnData Scenario.bound v eq_refl Hn).
Qed.


Lemma created_always_delivers turnData v :
  turnData <> JNull ->
  fst (writeToNotion (Scenario.always Scenario.created) turnData Scenario.bound v)
    = Normal (Delivered (Some (JStr "page-1"))).
Proof.
  intros Hn. by rewrite (writeToNotion_configured _ turnData Scenario.bound v eq_refl Hn).
Qed.

Lemma handler_body_matches_status_witness :
  let out := handleTurnResolved (Scenario.always Scenario.server_error)
               (Scenario.post (Normal (Scenario.turn "Turn 1"))) Scenario.bound
               Scenario.empty in
  fst out = Normal (error_response "Notion API error: 500") /\
  prop (JObj [("error", JStr "Notion API error: 500")]) "success" = None.
Proof.
  cbv zeta. split; [vm_compute; reflexivity |].
  pose proof (handler_body_matches_status (Scenario.always Scenario.server_error)
                (Scenario.post (Normal (Scenario.turn "Turn 1"))) Scenario.bound
                Scenario.empty (error_response "Notion API error: 500")
                ltac:(vm_compute; reflexivity)) as H.
  cbn in H. destruct H as (_ & _ & H). exact (proj1 (H (or_intror eq_refl))).
Defined.

Lemma unconfigured_worker_answers_500_witness :
  let request := Scenario.post (Normal (Scenario.turn "Turn 1")) in
  let out := handleTurnResolved (Scenario.always Scenario.created) request
               Scenario.keyless Scenario.empty in
  json_body request = Normal (Scenario.turn "Turn 1") /\
  well_formed (Scenario.turn "Turn 1") = true /\
  configured Scenario.keyless = false /\
  fst out = Normal (error_response "Notion API credentials not configured") /\
  fetches (snd out) = 0%nat.
Proof.
  cbv zeta. split_and!; [reflexivity.. | |];
    apply (unconfigured_worker_answers_500 (Scenario.always Scenario.created)
             (Scenario.post (Normal (Scenario.turn "Turn 1"))) Scenario.keyless
             Scenario.empty (Scenario.turn "Turn 1") eq_refl eq_refl eq_refl).
Defined.

Lemma notion_failure_is_surfaced_witness :
  let request := Scenario.post (Normal (Scenario.turn "Turn 1")) in
  let out := handleTurnResolved (Scenario.always Scenario.server_error) request
               Scenario.bound Scenario.empty in
  json_body request = Normal (Scenario.turn "Turn 1") /\
  well_formed (Scenario.turn "Turn 1") = true /\
  configured Scenario.bound = true /\
  fst out = Normal (json_response 500 (JObj [("error", JStr "Notion API error: 500")])) /\
  kv (snd out) = kv Scenario.empty.
Proof.
  cbv zeta. split_and!; [reflexivity.. | |];
    apply (notion_failure_is_surfaced (Scenario.always Scenario.server_error)
             (Scenario.post (Normal (Scenario.turn "Turn 1"))) Scenario.bound
             Scenario.empty (Scenario.turn "Turn 1") eq_refl eq_refl eq_refl
             ltac:(discriminate) eq_refl "oops" eq_refl).
Defined.

Lemma sweep_without_items_is_noop_witness :
  listed_keys "queue:" Scenario.empty = [] /\
  kv (snd (processQueue (Scenario.always Scenario.created) Scenario.bound Scenario.empty))
    = kv Scenario.empty /\
  fetches (snd (processQueue (Scenario.always Scenario.created) Scenario.bound
                  Scenario.empty)) = 0%nat.
Proof.
  split; [reflexivity |].
  apply (sweep_without_items_is_noop (Scenario.always Scenario.created) Scenario.bound
           Scenario.empty (or_intror eq_refl)).
Defined.

Lemma delivered_item_is_deleted_witness :
  let h := Scenario.always Scenario.created in
  let item := Scenario.queued "a" (Some 4) in
  let w := Scenario.holding item in
  kv_lookup w Scenario.k1 = Some item /\
  kv (snd (guarded_item h Scenario.bound Scenario.k1 w)) = delete Scenario.k1 (kv w).
Proof.
  cbv zeta. split; [reflexivity |].
  apply (delivered_item_is_deleted (Scenario.always Scenario.created) Scenario.bound
           Scenario.k1 (Scenario.queued "a" (Some 4))
           (Scenario.holding (Scenario.queued "a" (Some 4))) (Some (JStr "page-1")));
    vm_compute; reflexivity.
Defined.



Lemma sweep_drains_one_page_witness :
  let h := Scenario.always Scenario.created in
  let w := Scenario.holding (Scenario.queued "a" (Some 2)) in
  queue_keys "queue:" w = [Scenario.k1] /\
  queue_keys "queue:" (snd (processQueue h Scenario.bound w)) = [].
Proof.
  cbv zeta. split; [vm_compute; reflexivity |].
  apply (sweep_drains_one_page (Scenario.always Scenario.created) Scenario.bound
           (Scenario.holding (Scenario.queued "a" (Some 2))) eq_refl (fun _ => eq_refl)).
  - intros name item Hl v. exists (Some (JStr "page-1")).
    apply created_always_delivers.
    unfold kv_lookup, Scenario.holding, Scenario.world in Hl. cbn [kv now] in Hl.
    destruct (decide (name = Scenario.k1)) as [-> | Hne].
    + rewrite lookup_singleton_eq in Hl. vm_compute in Hl. injection Hl as <-. discriminate.
    + rewrite lookup_singleton_ne in Hl by done. discriminate.
  - vm_compute. lia.
Defined.

Lemma enqueued_item_readable_for_24h_witness :
  let h := Scenario.always Scenario.too_many in
  let after := snd (queueInKV h (Scenario.turn "Turn 1") Scenario.bound Scenario.empty) in
  kv_lookup (elapse 86399999 after) Scenario.k1
    = Some (Scenario.queued "Turn 1" (Some 0)) /\
  kv_lookup (elapse 86400000 after) Scenario.k1 = None.
Proof.
  cbv zeta. split.
  - exact (enqueued_item_readable_for_24h (Scenario.always Scenario.too_many)
             (Scenario.turn "Turn 1") Scenario.bound Scenario.empty 86399999
             eq_refl eq_refl).
  - exact (enqueued_item_readable_for_24h (Scenario.always Scenario.too_many)
             (Scenario.turn "Turn 1") Scenario.bound Scenario.empty 86400000
             eq_refl eq_refl).
Defined.

Lemma enqueued_item_is_listed_witness :
  let after := snd (queueInKV (Scenario.always Scenario.too_many) (Scenario.turn "Turn 1")
                      Scenario.bound Scenario.empty) in
  (length (queue_keys "queue:" after) <= page_limit)%nat /\
  Scenario.k1 ∈ listed_keys "queue:" after.
Proof.
  cbv zeta.
  assert (Hshort : (length (queue_keys "queue:"
                      (snd (queueInKV (Scenario.always Scenario.too_many)
                              (Scenario.turn "Turn 1") Scenario.bound Scenario.empty)))
                    <= page_limit)%nat).
  { vm_compute. lia. }
  split; [exact Hshort |].
  exact (proj2 (enqueued_item_is_listed (Scenario.always Scenario.too_many)
                  (Scenario.turn "Turn 1") Scenario.bound Scenario.empty eq_refl eq_refl)
           Hshort).
Defined.

Lemma queued_event_is_retried_at_once_witness :
  let h := Scenario.always Scenario.too_many in
  let request := Scenario.post (Normal (Scenario.turn "Turn 1")) in
  let out := handleTurnResolved h request Scenario.bound Scenario.empty in
  let final := snd (settle h (snd out)) in
  kv Scenario.empty = ∅ /\ suspended Scenario.empty = [] /\
  fst out = Normal queued_response /\
  fetches final = 2%nat /\
  kv final = {[Scenario.k1 := Scenario.fresh (Scenario.queued "Turn 1" (Some 1))]}.
Proof.
  cbv zeta. split; [reflexivity |]. split; [reflexivity |].
  destruct (queued_event_is_retried_at_once (Scenario.always Scenario.too_many)
              (Scenario.post (Normal (Scenario.turn "Turn 1"))) Scenario.bound
              Scenario.empty (Scenario.turn "Turn 1") eq_refl eq_refl eq_refl
              (fun _ => eq_refl)
              (fun v => ex_intro _ (Some "3")
                          (too_many_always_rate_limits (Scenario.turn "Turn 1") v
                             ltac:(discriminate)))
              eq_refl eq_refl) as (Hresp & _ & Hcalls & Hkv).
  split; [exact Hresp |]. split; [exact Hcalls | exact Hkv].
Defined.

(** A sweep reads one page of the listing.  With 1001 queued items that
    Notion all accepts, a sweep re-attempts the first 1000 in the order of
    the listing and leaves the last one, "queue:999", in the queue. *)
Example one_sweep_leaves_the_second_page :
  let w := Scenario.world (Scenario.numbered 1001) in
  let after := snd (processQueue (Scenario.always Scenario.created) Scenario.bound w) in
  length (queue_keys "queue:" w) = 1001%nat /\
  length (listed_keys "queue:" w) = 1000%nat /\
  fetches after = 1000%nat /\
  queue_keys "queue:" after = ["queue:999"].
Proof. vm_compute. auto. Qed.
